(** * pyignite thin client: affinity topology, node pool and binary type registry

    A shallow embedding of [pyignite/api/affinity.py] and of the node pool and
    type registry parts of [pyignite/client.py], with the properties of the
    natural-language specification stated and settled against it.

    Python objects are modelled by value; a method that mutates its client is a
    function in a state-and-exception monad over the client's attributes. *)

From stdpp Require Import gmap strings list fin_maps.
From Stdlib Require Import ZArith Lia.

Open Scope string_scope.
Open Scope list_scope.
Open Scope Z_scope.

(** ** Python exceptions and API results *)

(** The exceptions the modelled code can raise. *)
Inductive exn : Type :=
| IndexError
| StopIteration
| ReconnectError (msg : string)
| BinaryTypeError (msg : string).

(** The outcome of a Python call: a returned value or a raised exception. *)
Inductive outcome (A : Type) : Type :=
| Returns (a : A)
| Raises (e : exn).
Arguments Returns {A} a.
Arguments Raises {A} e.

(** [pyignite.api.result.APIResult]: status code, server message, value. *)
Record APIResult (V : Type) : Type := mkAPIResult {
  status : Z;
  message : string;
  value : V
}.
Arguments mkAPIResult {V} _ _ _.
Arguments status {V} _.
Arguments message {V} _.
Arguments value {V} _.

(** ** [pyignite/api/affinity.py] *)

Module Affinity.

(** A node UUID: 16 bytes, read as an unsigned number. *)
Definition UUID : Type := N.

(** Elements of the wire arrays [cache_config], [node_partitions],
    [node_mapping], [cache_mapping] and [empty_cache_mapping]. *)
Record cache_config_item : Type := {
  key_type_id : Z;
  affinity_key_field_id : Z
}.

Record node_partitions_item : Type := { partition_id : Z }.

Record node_mapping_item : Type := {
  node_uuid : UUID;
  node_partitions : list node_partitions_item
}.

Record cache_mapping_item : Type := {
  cache_id : Z;
  cache_config : list cache_config_item
}.

Record empty_cache_mapping_item : Type := { empty_cache_id : Z }.

(** One element of the wire array [partition_mapping], an applicability
    group. Both [Conditional] fields choose their descriptor by the value of
    [is_applicable], so a decoded group has one of two shapes: with
    [cache_mapping] and [node_mapping] when the flag is set, with
    [empty_cache_mapping] and the empty struct [empty_node_mapping]
    otherwise. *)
Inductive partition_map : Type :=
| applicable_group (cm : list cache_mapping_item) (nm : list node_mapping_item)
| inapplicable_group (cm : list empty_cache_mapping_item).

(** [partition_map['is_applicable']] *)
Definition is_applicable (pm : partition_map) : bool :=
  match pm with
  | applicable_group _ _ => true
  | inapplicable_group _ => false
  end.

(** The cache ids of a group, [c['cache_id'] for c in
    partition_map['cache_mapping']]. *)
Definition group_cache_ids (pm : partition_map) : list Z :=
  match pm with
  | applicable_group cm _ => cache_id <$> cm
  | inapplicable_group cm => empty_cache_id <$> cm
  end.

(** The decoded response, per [response_config]. *)
Record response : Type := {
  version_major : Z;
  version_minor : Z;
  partition_mapping : list partition_map
}.

(** An entry of the tidied ['partition_mapping'] list: a dict with the keys
    ['cache_id'] and ['is_applicable'] and, when they were assigned, the
    keys ['cache_config'] and ['node_mapping']. [None] is an absent key. *)
Record entry : Type := mkEntry {
  entry_cache_id : Z;
  entry_is_applicable : bool;
  entry_cache_config : option (gmap Z Z);
  entry_node_mapping : option (gmap UUID (list Z))
}.

(** The tidied value. *)
Record topology : Type := mkTopology {
  version : Z * Z;
  topology_mapping : list entry
}.

(** [{a['key_type_id']: a['affinity_key_field_id'] for a in cfg]: a later
    item with the same key replaces an earlier one. *)
Definition cache_config_dict (cfg : list cache_config_item) : gmap Z Z :=
  foldl (fun m a => <[key_type_id a := affinity_key_field_id a]> m) ∅ cfg.

(** [{p['node_uuid']: [x['partition_id'] for x in p['node_partitions']]
     for p in nm}] *)
Definition node_mapping_dict (nm : list node_mapping_item) : gmap UUID (list Z) :=
  foldl (fun m p => <[node_uuid p := partition_id <$> node_partitions p]> m) ∅ nm.

(** [list.insert(i, x)]: before position [i], at the end when [i] is past
    it. *)
Definition py_insert {A : Type} (i : nat) (x : A) (l : list A) : list A :=
  take i l ++ x :: drop i l.

(** The body of the [for i, partition_map in enumerate(...)] loop, run on the
    groups that are left, with the list built so far. Indexing an empty
    ['cache_mapping'] with [0] raises [IndexError]. *)
Fixpoint tidy_loop (i : nat) (pms : list partition_map) (acc : list entry)
  : outcome (list entry) :=
  match pms with
  | [] => Returns acc
  | pm :: rest =>
      match group_cache_ids pm !! 0%nat with
      | None => Raises IndexError
      | Some cid =>
          let acc1 := py_insert i (mkEntry cid (is_applicable pm) None None) acc in
          let acc2 :=
            match pm with
            | applicable_group (c :: _) nm =>
                let acc' :=
                  alter (fun e => mkEntry (entry_cache_id e) (entry_is_applicable e)
                                    (Some (cache_config_dict (cache_config c)))
                                    (entry_node_mapping e)) i acc1 in
                alter (fun e => mkEntry (entry_cache_id e) (entry_is_applicable e)
                                  (entry_cache_config e)
                                  (Some (node_mapping_dict nm))) i acc'
            | _ => acc1
            end in
          tidy_loop (S i) rest acc2
      end
  end.

(** The value of a result: the decoded response as it came, or the tidied
    one. *)
Inductive result_value : Type :=
| raw_value (r : response)
| tidy_value (t : topology).

(** The part of [cache_get_node_partitions] after [query_struct.perform]:
    a result with status 0 gets its value replaced by the tidied one, any
    other result is returned as it is. *)
Definition tidy_result (result : APIResult response)
  : outcome (APIResult result_value) :=
  if decide (status result = 0) then
    match tidy_loop 0 (partition_mapping (value result)) [] with
    | Raises e => Raises e
    | Returns pm =>
        Returns (mkAPIResult (status result) (message result)
                   (tidy_value (mkTopology
                      (version_major (value result), version_minor (value result))
                      pm)))
    end
  else
    Returns (mkAPIResult (status result) (message result)
               (raw_value (value result))).

(** [caches: Union[int, Iterable[int]]] *)
Inductive caches_arg : Type :=
| one_cache (c : Z)
| many_caches (cs : list Z).

(** [if not is_iterable(caches): caches = [caches]] *)
Definition caches_list (caches : caches_arg) : list Z :=
  match caches with
  | one_cache c => [c]
  | many_caches cs => cs
  end.

Section Query.
(** The connection and [query_struct.perform], which sends the cache ids and
    decodes the response. *)
Context {Conn : Type}.
Variable perform : Conn -> list Z -> APIResult response.

Definition cache_get_node_partitions (conn : Conn) (caches : caches_arg)
  : outcome (APIResult result_value) :=
  let caches := caches_list caches in
  let result := perform conn caches in
  tidy_result result.
End Query.

End Affinity.


(** ** [pyignite/client.py] *)

Module Client.

(** A protocol version, the tuple [(major, minor, revision)]. *)
Definition Version : Type := Z * Z * Z.

(** Python's [>=] on two 3-tuples of integers: the first position where they
    differ decides. *)
Definition version_ge (v w : Version) : bool :=
  let '(a, b, c) := v in
  let '(x, y, z) := w in
  if bool_decide (a = x) then
    if bool_decide (b = y) then bool_decide (z ≤ c) else bool_decide (y < b)
  else bool_decide (x < a).

(** [binary_type: Union[int, str]], a type ID or a type name. *)
Inductive binary_type_arg : Type :=
| type_by_id (id : Z)
| type_by_name (name : string).

(** What the client has done on the network so far: calls of
    [Connection.connect] and [Connection.reconnect] with the node's host and
    port and whether a handshake succeeded, and the requests sent by
    [api.binary.get_binary_type] and [api.binary.put_binary_type]. *)
Inductive event : Type :=
| ev_connect (host : string) (port : Z) (ok : bool)
| ev_reconnect (host : string) (port : Z) (ok : bool)
| ev_get_binary_type (host : string) (port : Z) (binary_type : binary_type_arg)
| ev_put_binary_type (host : string) (port : Z) (type_name : string).

(** One row of ['binary_fields'] in the response to a type description
    query. *)
Record binary_field : Type := {
  field_id : Z;
  field_name : string;
  field_type_id : Z
}.

(** The value of a type description result. [S] is the form of the schemas:
    as decoded, the flat table ['binary_fields'] with the dict ['schema'] of
    schema id to field ids; after [_process_get_binary_type_result], the list
    ['schemas']. When ['type_exists'] is false the other keys are absent and
    the fields here are not read. *)
Record type_info (S : Type) : Type := mkTypeInfo {
  type_exists : bool;
  type_id : Z;
  type_name : string;
  affinity_key_field : option string;
  is_enum : bool;
  schemas : S
}.
Arguments mkTypeInfo {S} _ _ _ _ _ _.
Arguments type_exists {S} _.
Arguments type_id {S} _.
Arguments type_name {S} _.
Arguments affinity_key_field {S} _.
Arguments is_enum {S} _.
Arguments schemas {S} _.

Definition raw_schemas : Type := list binary_field * list (Z * list Z).

(** The code of this repository that [client.py] calls and that is not among
    the sources: the [Connection] class, the data classes built by
    [GenericObjectMeta], the hashes and name helpers of [utils], the type
    code table [tc_map], the request functions of [api.binary], and the
    generator behind [random.choice]. *)
Class Externals : Type := {
  (** [pyignite.connection.Connection]: an object with the attributes [host],
      [port] and [failed] and the property [alive]. *)
  Conn : Type;
  (** [conn = Connection(self, **self._connection_args); conn.host = host;
      conn.port = port] *)
  new_connection : string -> Z -> Conn;
  host : Conn -> string;
  port : Conn -> Z;
  alive : Conn -> bool;
  close : Conn -> Conn;
  (** [conn.failed = True] *)
  set_failed : Conn -> Conn;
  (** [conn.connect(host, port)]: the connection afterwards, and the version
      of a successful handshake; [None] when one of [connection_errors] is
      raised. *)
  conn_connect : Conn -> string -> Z -> Conn * option Version;
  (** [conn.reconnect()], which raises nothing: the connection afterwards,
      and the version of a handshake if one succeeded. *)
  conn_reconnect : Conn -> Conn * option Version;

  (** [random.choice(seq)] is [seq[randbelow(len(seq))]]; the first argument
      is the number of draws made before. *)
  randbelow : nat -> nat -> nat;

  (** A type hint of a schema field: a parser class. *)
  TypeHint : Type;
  BinaryObject : TypeHint;
  (** [tc_map(bytes([tc]))], [None] for its [KeyError]. *)
  tc_map : Z -> option TypeHint;

  (** [utils.entity_id] and [utils.schema_id] on a name and on a schema. *)
  entity_hash : string -> Z;
  schema_hash : list (string * TypeHint) -> Z;
  process_delimiter : string -> string -> string;
  capitalize : string -> string;
  (** [cls._identifier.sub('', s)] and [cls._ident_start.sub('', s)] *)
  identifier_sub : string -> string;
  ident_start_sub : string -> string;

  (** A Complex object data class, with the attributes the client reads. *)
  DataClass : Type;
  class_type_id : DataClass -> Z;
  class_schema_id : DataClass -> Z;
  class_type_name : DataClass -> string;
  class_schema : DataClass -> list (string * TypeHint);
  (** [GenericObjectMeta(type_name, (), {}, schema=schema)] *)
  GenericObjectMeta : string -> list (string * TypeHint) -> DataClass;

  (** [api.binary.get_binary_type(conn, binary_type)] and
      [api.binary.put_binary_type(conn, type_name, affinity_key_field,
      is_enum, schema)]: the result the server gives, which may depend on
      all that happened before. *)
  api_get_binary_type :
    list event -> Conn -> binary_type_arg -> APIResult (type_info raw_schemas);
  api_put_binary_type :
    list event -> Conn -> string -> option string -> bool ->
    list (string * TypeHint) -> APIResult unit
}.

Section Model.
Context {E : Externals}.

(** A schema: an [OrderedDict] of field name to type hint. *)
Definition Schema : Type := list (string * TypeHint).

(** [schema: Union[int, dict] = None] *)
Inductive schema_arg : Type :=
| schema_none
| schema_int (id : Z)
| schema_dict (s : Schema).

(** Python truth value of a [schema] argument. *)
Definition schema_truthy (s : schema_arg) : bool :=
  match s with
  | schema_none => false
  | schema_int id => bool_decide (id ≠ 0)
  | schema_dict d => match d with [] => false | _ => true end
  end.

(** Modelled from the spec: [utils.schema_id] and [utils.entity_id] are not
    among the sources. A schema or type given by its ID is that ID (the
    docstring of [query_binary_type]: "Complex object schema or schema ID",
    "Complex object type name or ID"); otherwise the ID is "a deterministic
    hash" of the schema or of the name. *)
Definition schema_id (s : schema_arg) : Z :=
  match s with
  | schema_none => 0
  | schema_int id => id
  | schema_dict d => schema_hash d
  end.

Definition entity_id (t : binary_type_arg) : Z :=
  match t with
  | type_by_id id => id
  | type_by_name name => entity_hash name
  end.

(** The client's attributes that the modelled methods use, with the state of
    the random generator and the network log. [_registry] is a
    [defaultdict(dict)]: type ID to schema ID to data class. *)
Record state : Type := mkState {
  _partition_aware : bool;
  _registry : gmap Z (gmap Z DataClass);
  _nodes : list Conn;
  _current_node : nat;
  _protocol_version : option Version;
  draws : nat;
  log : list event
}.

Definition with_registry (f : gmap Z (gmap Z DataClass) -> gmap Z (gmap Z DataClass))
    (w : state) : state :=
  mkState (_partition_aware w) (f (_registry w)) (_nodes w) (_current_node w)
    (_protocol_version w) (draws w) (log w).

Definition with_nodes (f : list Conn -> list Conn) (w : state) : state :=
  mkState (_partition_aware w) (_registry w) (f (_nodes w)) (_current_node w)
    (_protocol_version w) (draws w) (log w).

Definition with_current_node (i : nat) (w : state) : state :=
  mkState (_partition_aware w) (_registry w) (_nodes w) i
    (_protocol_version w) (draws w) (log w).

Definition with_protocol_version (v : option Version) (w : state) : state :=
  mkState (_partition_aware w) (_registry w) (_nodes w) (_current_node w)
    v (draws w) (log w).

Definition with_draws (k : nat) (w : state) : state :=
  mkState (_partition_aware w) (_registry w) (_nodes w) (_current_node w)
    (_protocol_version w) k (log w).

Definition with_log (f : list event -> list event) (w : state) : state :=
  mkState (_partition_aware w) (_registry w) (_nodes w) (_current_node w)
    (_protocol_version w) (draws w) (f (log w)).

Definition with_partition_aware (b : bool) (w : state) : state :=
  mkState b (_registry w) (_nodes w) (_current_node w)
    (_protocol_version w) (draws w) (log w).

(** [BaseClient.__init__] *)
Definition init (partition_aware : bool) : state :=
  mkState partition_aware ∅ [] 0 None 0 [].

(** *** The monad of client methods

    A method takes the state and gives what it returns or raises and the
    state it leaves; what was mutated before a raise stays mutated. *)
Definition M (A : Type) : Type := state -> outcome A * state.

Definition ret {A : Type} (a : A) : M A := fun w => (Returns a, w).

Definition raise {A : Type} (e : exn) : M A := fun w => (Raises e, w).

Definition bind {A B : Type} (m : M A) (k : A -> M B) : M B :=
  fun w =>
    match m w with
    | (Returns a, w') => k a w'
    | (Raises e, w') => (Raises e, w')
    end.

Definition gets {A : Type} (f : state -> A) : M A := fun w => (Returns (f w), w).

Definition modify (f : state -> state) : M unit := fun w => (Returns tt, f w).

End Model.

Notation "'let*' x := m 'in' k" := (bind m (fun x => k))
  (at level 10, x binder, k at level 200).
Notation "m ;;; k" := (bind m (fun _ => k))
  (at level 100, k at level 200, right associativity).

Section Methods.
Context {E : Externals}.

(** An exception of a pure helper is raised by the method that calls it. *)
Definition lift {A : Type} (o : outcome A) : M A := fun w => (o, w).

(** [self._nodes[i]], a reference to the node: its position in the pool. *)
Definition get_node (i : nat) : M Conn :=
  fun w =>
    match _nodes w !! i with
    | Some c => (Returns c, w)
    | None => (Raises IndexError, w)
    end.

(** The node at position [i] was mutated in place and is now [c]. *)
Definition set_node (i : nat) (c : Conn) : M unit :=
  modify (with_nodes (fun ns => <[i := c]> ns)).

(** *** Properties of [BaseClient] *)

Definition protocol_version (w : state) : option Version := _protocol_version w.

Definition partition_awareness_supported_by_protocol (w : state) : bool :=
  match protocol_version w with
  | None => false
  | Some v => version_ge v (1, 4, 0)
  end.

Definition partition_aware (w : state) : bool :=
  _partition_aware w && partition_awareness_supported_by_protocol w.

(** *** Calls into [Connection] *)

Definition handshake_ok (r : option Version) : bool :=
  match r with
  | Some _ => true
  | None => false
  end.

(** Modelled from the spec: [Connection.connect] is not among the sources; it
    is what sets the client's [protocol_version], and the "version is learned
    from the first successful handshake". *)
Definition learn_version (r : option Version) (w : state) : state :=
  match r, _protocol_version w with
  | Some v, None => with_protocol_version (Some v) w
  | _, _ => w
  end.

(** [c.connect(h, p)]: the connection afterwards and whether the call
    returned ([false]: it raised one of [connection_errors]). *)
Definition call_connect (c : Conn) (h : string) (p : Z) : M (Conn * bool) :=
  fun w =>
    let '(c', r) := conn_connect c h p in
    (Returns (c', handshake_ok r),
     learn_version r (with_log (fun l => l ++ [ev_connect h p (handshake_ok r)]) w)).

(** [c.reconnect()] *)
Definition call_reconnect (c : Conn) : M Conn :=
  fun w =>
    let '(c', r) := conn_reconnect c in
    (Returns c',
     learn_version r
       (with_log (fun l => l ++ [ev_reconnect (host c) (port c) (handshake_ok r)]) w)).

(** *** [Client.connect] *)

(** One turn of [for i, node in enumerate(nodes)]. *)
Definition connect_node (i : nat) (node : string * Z) : M unit :=
  let '(host, port) := node in
  let conn := new_connection host port in
  let* version := gets protocol_version in
  let* aware := gets partition_aware in
  let* conn :=
    (if bool_decide (version = None) || aware then
       (* open connection before adding to the pool *)
       let* '(conn, connected) := call_connect conn host port in
       if connected then
         (* now we have the protocol version *)
         let* aware := gets partition_aware in
         (if negb aware then
            (* do not try to open more nodes *)
            modify (with_current_node i)
          else ret tt) ;;;
         ret conn
       else
         (* except connection_errors *)
         let conn := set_failed conn in
         let* aware := gets partition_aware in
         if aware then
           (* schedule the reconnection *)
           call_reconnect conn
         else ret conn
     else ret conn) in
  modify (with_nodes (fun ns => ns ++ [conn])).

Fixpoint connect_loop (i : nat) (nodes : list (string * Z)) : M unit :=
  match nodes with
  | [] => ret tt
  | node :: rest => connect_node i node ;;; connect_loop (S i) rest
  end.

(** [Client.connect], from the list [nodes] of host and port pairs that its
    arguments stand for. *)
Definition connect (nodes : list (string * Z)) : M unit :=
  connect_loop 0 nodes ;;;
  let* version := gets protocol_version in
  match version with
  | None => raise (ReconnectError "Can not connect.")
  | Some _ => ret tt
  end.

(** *** [Client._get_random_node] *)

(** [[n for n in self._nodes if n.alive]], as positions in the pool. *)
Definition alive_nodes (w : state) : list nat :=
  filter (fun i => from_option alive false (_nodes w !! i) = true)
    (seq 0 (length (_nodes w))).

(** [random.choice(l)] *)
Definition random_choice {A : Type} (l : list A) : M A :=
  fun w =>
    match l with
    | [] => (Raises IndexError, w)
    | _ =>
        match l !! randbelow (draws w) (length l) with
        | Some x => (Returns x, with_draws (S (draws w)) w)
        | None => (Raises IndexError, with_draws (S (draws w)) w)
        end
    end.

(** [for n in self._nodes: n.reconnect()], over the positions that are
    left. *)
Fixpoint reconnect_nodes (positions : list nat) : M unit :=
  match positions with
  | [] => ret tt
  | i :: rest =>
      let* n := get_node i in
      let* n := call_reconnect n in
      set_node i n ;;;
      reconnect_nodes rest
  end.

(** The body of [_get_random_node]; [again] is the call
    [self._get_random_node(reconnect=False)]. *)
Definition _get_random_node_body (again : M nat) (reconnect : bool) : M nat :=
  let* alive_nodes := gets alive_nodes in
  match alive_nodes with
  | _ :: _ => random_choice alive_nodes
  | [] =>
      if reconnect then
        let* num_nodes := gets (fun w => length (_nodes w)) in
        reconnect_nodes (seq 0 num_nodes) ;;;
        again
      else
        (* cannot choose from an empty sequence *)
        raise (ReconnectError "Can not reconnect: out of nodes.")
  end.

(** [Client._get_random_node]: the call it makes on itself passes
    [reconnect=False], and with that value the body makes no call. *)
Definition _get_random_node (reconnect : bool) : M nat :=
  _get_random_node_body
    (_get_random_node_body (raise (ReconnectError "Can not reconnect: out of nodes.")) false)
    reconnect.

(** *** [Client.random_node] *)

(** The loop [for i in chain(range(cur, num_nodes), range(cur))], over the
    positions that are left. *)
Fixpoint try_nodes (order : list nat) : M nat :=
  match order with
  | [] =>
      (* no nodes left *)
      raise (ReconnectError "Can not reconnect: out of nodes.")
  | i :: rest =>
      let* node := get_node i in
      let* '(node, connected) := call_connect node (host node) (port node) in
      set_node i node ;;;
      if connected then ret i else try_nodes rest
  end.

(** [chain(range(cur, num_nodes), range(cur))] *)
Definition scan_order (cur num_nodes : nat) : list nat :=
  seq cur (num_nodes - cur) ++ seq 0 cur.

(** The [else] branch of [random_node]: partition awareness is not used. *)
Definition sequential_node : M nat :=
  (* just return the current node if it's alive or the next usable node if
     connection with the current is broken *)
  let* cur := gets _current_node in
  let* node := get_node cur in
  if alive node then ret cur
  else
    (* close current (supposedly failed) node *)
    let* cur := gets _current_node in
    let* node := get_node cur in
    set_node cur (close node) ;;;
    (* advance the node index *)
    modify (fun w => with_current_node (S (_current_node w)) w) ;;;
    let* wrapped := gets (fun w => bool_decide (length (_nodes w) ≤ _current_node w)%nat) in
    (if wrapped then modify (with_current_node 0) else ret tt) ;;;
    (* prepare the list of node indexes to try to connect to *)
    let* num_nodes := gets (fun w => length (_nodes w)) in
    let* cur := gets _current_node in
    try_nodes (scan_order cur num_nodes).

Definition random_node : M nat :=
  let* aware := gets partition_aware in
  if aware then
    (* if partition awareness is used just pick a random connected node *)
    _get_random_node true
  else sequential_node.

(** *** What a call on a node does, for the statements below *)

(** Whether [c.connect(c.host, c.port)] returns, and the event it logs. *)
Definition connects (c : Conn) : bool :=
  handshake_ok (conn_connect c (host c) (port c)).2.

Definition connect_event (c : Conn) : event :=
  ev_connect (host c) (port c) (connects c).

(** The state after that call on the node [c] at position [i] of the pool. *)
Definition after_connect (i : nat) (c : Conn) (w : state) : state :=
  with_nodes (fun ns => <[i := (conn_connect c (host c) (port c)).1]> ns)
    (learn_version (conn_connect c (host c) (port c)).2
       (with_log (fun l => l ++ [connect_event c]) w)).

(** The state after [c.reconnect()] on the node [c] at position [i]. *)
Definition after_reconnect (i : nat) (c : Conn) (w : state) : state :=
  with_nodes (fun ns => <[i := (conn_reconnect c).1]> ns)
    (learn_version (conn_reconnect c).2
       (with_log (fun l => l ++ [ev_reconnect (host c) (port c)
                                   (handshake_ok (conn_reconnect c).2)]) w)).



(** The event that [c.reconnect()] logs. *)
Definition reconnect_event (c : Conn) : event :=
  ev_reconnect (host c) (port c) (handshake_ok (conn_reconnect c).2).




(** *** Binary types: helpers of [BaseClient] *)

(** [d[k] = v] on an [OrderedDict]: a key that is there keeps its place. *)
Fixpoint od_set (k : string) (v : TypeHint) (d : Schema) : Schema :=
  match d with
  | [] => [(k, v)]
  | (k', v') :: rest =>
      if decide (k = k') then (k, v) :: rest else (k', v') :: od_set k v rest
  end.

(** [_convert_type]: [tc_type.to_bytes(1, ...)] raises [OverflowError]
    outside of a byte and [tc_map] raises [KeyError] on an unknown code; both
    give [BinaryObject]. *)
Definition _convert_type (tc_type : Z) : TypeHint :=
  if decide (0 ≤ tc_type < 256) then default BinaryObject (tc_map tc_type)
  else BinaryObject.

(** The loop of [_convert_schema]; [next] on a generator that yields nothing
    raises [StopIteration]. *)
Fixpoint _convert_schema_loop (field_ids : list Z) (binary_fields : list binary_field)
    (converted_schema : Schema) : outcome Schema :=
  match field_ids with
  | [] => Returns converted_schema
  | fid :: rest =>
      match List.find (fun x => bool_decide (field_id x = fid)) binary_fields with
      | None => Raises StopIteration
      | Some binary_field =>
          _convert_schema_loop rest binary_fields
            (od_set (field_name binary_field)
               (_convert_type (field_type_id binary_field)) converted_schema)
      end
  end.

Definition _convert_schema (field_ids : list Z) (binary_fields : list binary_field)
    : outcome Schema :=
  _convert_schema_loop field_ids binary_fields [].

(** The loop [for s_id, field_ids in old_format_schemas.items()]. *)
Fixpoint convert_schemas (old_format_schemas : list (Z * list Z))
    (binary_fields : list binary_field) (acc : list Schema) : outcome (list Schema) :=
  match old_format_schemas with
  | [] => Returns acc
  | (s_id, field_ids) :: rest =>
      match _convert_schema field_ids binary_fields with
      | Raises e => Raises e
      | Returns schema => convert_schemas rest binary_fields (acc ++ [schema])
      end
  end.

(** [_process_get_binary_type_result]. A result that is returned as it came
    has no ['schemas'] key; nothing reads it, and it is the empty list
    here. *)
Definition _process_get_binary_type_result (result : APIResult (type_info raw_schemas))
    : outcome (APIResult (type_info (list Schema))) :=
  let v := value result in
  if bool_decide (status result ≠ 0) || negb (type_exists v) then
    Returns (mkAPIResult (status result) (message result)
               (mkTypeInfo (type_exists v) (type_id v) (type_name v)
                  (affinity_key_field v) (is_enum v) []))
  else
    let '(binary_fields, old_format_schemas) := schemas v in
    match convert_schemas old_format_schemas binary_fields [] with
    | Raises e => Raises e
    | Returns ss =>
        Returns (mkAPIResult (status result) (message result)
                   (mkTypeInfo (type_exists v) (type_id v) (type_name v)
                      (affinity_key_field v) (is_enum v) ss))
    end.

(** [_create_dataclass]; [schema or {}] is the schema itself or an empty
    one. *)
Definition _create_dataclass (type_name : string) (schema : Schema) : DataClass :=
  GenericObjectMeta type_name schema.

Definition _create_type_name (type_name : string) : string :=
  (* general sanitizing *)
  let type_name := identifier_sub type_name in
  let type_name := process_delimiter type_name "$" in
  (* .NET outer/inner class delimiter *)
  let type_name := process_delimiter type_name "+" in
  (* Java fully qualified class name *)
  let type_name := process_delimiter type_name "." in
  (* start chars sanitizing *)
  capitalize (ident_start_sub type_name).

(** [defaultdict.__getitem__]: a missing key is first set to a new [dict]. *)
Definition touch (type_id : Z) (registry : gmap Z (gmap Z DataClass))
    : gmap Z (gmap Z DataClass) :=
  match registry !! type_id with
  | Some _ => registry
  | None => <[type_id := ∅]> registry
  end.

(** [self._registry[type_id]] *)
Definition registry_item (type_id : Z) : M (gmap Z DataClass) :=
  fun w =>
    let w := with_registry (touch type_id) w in
    (Returns (default ∅ (_registry w !! type_id)), w).

(** [self._registry[type_id][s_id] = data_class] *)
Definition registry_set (type_id s_id : Z) (data_class : DataClass) : M unit :=
  registry_item type_id ;;;
  modify (with_registry (alter (fun d => <[s_id := data_class]> d) type_id)).

(** The loop [for schema in type_info['schemas']]. A data class is a class
    object, which is true. *)
Fixpoint sync_schemas (type_id : Z) (type_name : string) (schemas : list Schema)
    : M unit :=
  match schemas with
  | [] => ret tt
  | schema :: rest =>
      let* d := registry_item type_id in
      (match d !! schema_id (schema_dict schema) with
       | Some _ => ret tt
       | None =>
           let data_class :=
             _create_dataclass (_create_type_name type_name) schema in
           registry_set type_id (schema_id (schema_dict schema)) data_class
       end) ;;;
      sync_schemas type_id type_name rest
  end.

Definition _sync_binary_registry (type_id : Z) (type_info : type_info (list Schema))
    : M unit :=
  if type_exists type_info then
    sync_schemas type_id (type_name type_info) (schemas type_info)
  else ret tt.

(** What [_get_from_registry] and [query_binary_type] return: a data class,
    [None], or the dict of schema ID to data class of a type. *)
Inductive registry_result : Type :=
| found_class (data_class : DataClass)
| found_none
| found_dict (d : gmap Z DataClass).

(** Python truth value of such a result. *)
Definition truthy (r : registry_result) : bool :=
  match r with
  | found_class _ => true
  | found_none => false
  | found_dict d => negb (bool_decide (d = ∅))
  end.

Definition _get_from_registry (type_id : Z) (schema : schema_arg) : M registry_result :=
  if schema_truthy schema then
    let* d := registry_item type_id in
    match d !! schema_id schema with
    | Some data_class => ret (found_class data_class)
    | None => (* except KeyError *) ret found_none
    end
  else
    let* d := registry_item type_id in
    ret (found_dict d).

(** *** Binary types: methods of [Client] *)

(** Modelled from the spec: the decorator [utils.status_to_exception] is not
    among the sources; "a registration or resolution request returning a
    non-zero status is surfaced as a typed error carrying the server's
    message", and otherwise the method returns the value of the result. *)
Definition status_to_exception {V : Type} (exc : string -> exn) (m : M (APIResult V))
    : M V :=
  let* result := m in
  if bool_decide (status result ≠ 0) then raise (exc (message result))
  else ret (value result).

(** [api.binary.get_binary_type(conn, binary_type)] *)
Definition call_get_binary_type (conn : Conn) (binary_type : binary_type_arg)
    : M (APIResult (type_info raw_schemas)) :=
  fun w =>
    (Returns (api_get_binary_type (log w) conn binary_type),
     with_log (fun l => l ++ [ev_get_binary_type (host conn) (port conn) binary_type]) w).

(** [api.binary.put_binary_type(conn, type_name, affinity_key_field, is_enum,
    schema)] *)
Definition call_put_binary_type (conn : Conn) (type_name : string)
    (affinity_key_field : option string) (is_enum : bool) (schema : Schema)
    : M (APIResult unit) :=
  fun w =>
    (Returns (api_put_binary_type (log w) conn type_name affinity_key_field is_enum schema),
     with_log (fun l => l ++ [ev_put_binary_type (host conn) (port conn) type_name]) w).

Definition get_binary_type (binary_type : binary_type_arg)
    : M (type_info (list Schema)) :=
  status_to_exception BinaryTypeError
    (let* i := random_node in
     let* conn := get_node i in
     let* result := call_get_binary_type conn binary_type in
     lift (_process_get_binary_type_result result)).

Definition put_binary_type (type_name : string) (affinity_key_field : option string)
    (is_enum : bool) (schema : Schema) : M unit :=
  status_to_exception BinaryTypeError
    (let* i := random_node in
     let* conn := get_node i in
     call_put_binary_type conn type_name affinity_key_field is_enum schema).

Definition query_binary_type (binary_type : binary_type_arg) (schema : schema_arg)
    (sync : bool) : M registry_result :=
  let type_id := entity_id binary_type in
  let* result := _get_from_registry type_id schema in
  if negb (truthy result) then
    let* type_info := get_binary_type (type_by_id type_id) in
    _sync_binary_registry type_id type_info ;;;
    _get_from_registry type_id schema
  else ret result.

Definition register_binary_type (data_class : DataClass)
    (affinity_key_field : option string) : M unit :=
  let* known :=
    query_binary_type (type_by_id (class_type_id data_class))
      (schema_int (class_schema_id data_class)) true in
  (if negb (truthy known) then
     put_binary_type (class_type_name data_class) affinity_key_field false
       (class_schema data_class)
   else ret tt) ;;;
  registry_set (class_type_id data_class) (class_schema_id data_class) data_class.

(** *** What the registry holds, for the statements below *)

(** What [_get_from_registry] finds in a registry, the dict of a type that
    has none being empty. *)
Definition registry_lookup (type_id : Z) (schema : schema_arg)
    (registry : gmap Z (gmap Z DataClass)) : registry_result :=
  let d := default ∅ (registry !! type_id) in
  if schema_truthy schema then
    match d !! schema_id schema with
    | Some data_class => found_class data_class
    | None => found_none
    end
  else found_dict d.

End Methods.

Section Closing.
Context {E : Externals}.

(** *** [Client.close] *)

(** [for conn in self._nodes: conn.close()], over the positions that are
    left. *)
Fixpoint close_nodes (positions : list nat) : M unit :=
  match positions with
  | [] => ret tt
  | i :: rest =>
      let* conn := get_node i in
      set_node i (close conn) ;;;
      close_nodes rest
  end.

(** [Client.close]; the name [close] is the one of [Connection.close]. *)
Definition client_close : M unit :=
  let* num_nodes := gets (fun w => length (_nodes w)) in
  close_nodes (seq 0 num_nodes) ;;;
  modify (with_nodes (fun _ => [])).

End Closing.

(** *** The property [compact_footer] of [BaseClient]

    The attribute [_compact_footer] is [None], [True] or [False]. *)




End Client.

(** ** A concrete client, for examples *)

Module Sample.
Import Client.

(** Modelled from the spec: the [Connection] class is not among the sources. A
    "NodeEndpoint" has a "host, port, ..., liveness flag, current socket";
    it is alive with a socket and no failure detected, and "reconnect reuses
    identity but replaces the underlying socket". *)
Record endpoint : Type := mkEndpoint {
  ep_host : string;
  ep_port : Z;
  ep_socket : bool;
  ep_failed : bool
}.

Definition ep_alive (e : endpoint) : bool := ep_socket e && negb (ep_failed e).

Definition ep_close (e : endpoint) : endpoint :=
  mkEndpoint (ep_host e) (ep_port e) false (ep_failed e).

Definition ep_set_failed (e : endpoint) : endpoint :=
  mkEndpoint (ep_host e) (ep_port e) (ep_socket e) true.

(** A data class by its attributes. *)
Record data_class : Type := mkDataClass {
  dc_type_id : Z;
  dc_schema_id : Z;
  dc_type_name : string;
  dc_schema : list (string * Z)
}.

(** A 32-bit polynomial hash of a string, in the manner of Java's
    [hashCode]. *)
Fixpoint hashcode (h : Z) (s : string) : Z :=
  match s with
  | EmptyString => h
  | String c rest =>
      hashcode ((31 * h + Z.of_N (Ascii.N_of_ascii c) + 2 ^ 31) mod 2 ^ 32 - 2 ^ 31) rest
  end.

Definition sample_schema_hash (d : list (string * Z)) : Z :=
  foldl (fun h '(name, _) => hashcode h name) 0 d.

Section Network.
(** The version an endpoint's handshake gives, [None] when it is unreachable;
    what the server answers to the two binary type requests. *)
Variable reachable : string -> Z -> option Version.
Variable get_reply : list event -> binary_type_arg -> APIResult (type_info raw_schemas).
Variable put_reply : list event -> string -> APIResult unit.

Definition ep_connect (e : endpoint) (h : string) (p : Z) : endpoint * option Version :=
  match reachable h p with
  | Some v => (mkEndpoint (ep_host e) (ep_port e) true false, Some v)
  | None => (mkEndpoint (ep_host e) (ep_port e) false (ep_failed e), None)
  end.

Definition ep_reconnect (e : endpoint) : endpoint * option Version :=
  if ep_alive e then (e, None)
  else ep_connect (ep_close e) (ep_host e) (ep_port e).

Definition externals : Externals := {|
  Conn := endpoint;
  new_connection := fun h p => mkEndpoint h p false false;
  host := ep_host;
  port := ep_port;
  alive := ep_alive;
  close := ep_close;
  set_failed := ep_set_failed;
  conn_connect := ep_connect;
  conn_reconnect := ep_reconnect;
  randbelow := fun k n => (k `mod` n)%nat;
  TypeHint := Z;
  BinaryObject := 103;
  tc_map := fun tc => if decide (1 ≤ tc ≤ 36) then Some tc else None;
  entity_hash := hashcode 0;
  schema_hash := sample_schema_hash;
  process_delimiter := fun s _ => s;
  capitalize := fun s => s;
  identifier_sub := fun s => s;
  ident_start_sub := fun s => s;
  DataClass := data_class;
  class_type_id := dc_type_id;
  class_schema_id := dc_schema_id;
  class_type_name := dc_type_name;
  class_schema := dc_schema;
  GenericObjectMeta := fun name schema =>
    mkDataClass (hashcode 0 name) (sample_schema_hash schema) name schema;
  api_get_binary_type := fun l _ t => get_reply l t;
  api_put_binary_type := fun l _ name _ _ _ => put_reply l name
|}.
End Network.

(** *** Sample data *)

(** A topology response with one applicability group that covers the cache
    ids 7 and 9, with the node map {UUID-A: [0, 1, 2]}. *)
Definition uuid_a : Affinity.UUID := 10%N.

Definition group_7_9 : Affinity.partition_map :=
  Affinity.applicable_group
    [ {| Affinity.cache_id := 7; Affinity.cache_config := [] |};
      {| Affinity.cache_id := 9; Affinity.cache_config := [] |} ]
    [ {| Affinity.node_uuid := uuid_a;
         Affinity.node_partitions :=
           [ {| Affinity.partition_id := 0 |}; {| Affinity.partition_id := 1 |};
             {| Affinity.partition_id := 2 |} ] |} ].

Definition response_7_9 : APIResult Affinity.response :=
  mkAPIResult 0 ""
    {| Affinity.version_major := 1; Affinity.version_minor := 0;
       Affinity.partition_mapping := [group_7_9] |}.

(** A response with an applicable group and a group that is not. *)
Definition response_mixed : APIResult Affinity.response :=
  mkAPIResult 0 ""
    {| Affinity.version_major := 1; Affinity.version_minor := 0;
       Affinity.partition_mapping :=
         [ group_7_9;
           Affinity.inapplicable_group [ {| Affinity.empty_cache_id := 11 |} ] ] |}.

(** Three endpoints on ports 10801, 10802 and 10803 of one host; a network
    on which only the listed ports answer, with protocol version [v]. *)
Definition node1 : string * Z := ("127.0.0.1", 10801).
Definition node2 : string * Z := ("127.0.0.1", 10802).
Definition node3 : string * Z := ("127.0.0.1", 10803).

Definition only_ports (ports : list Z) (v : Version) (h : string) (p : Z)
    : option Version :=
  if bool_decide (p ∈ ports) then Some v else None.

(** A server that knows no binary type and accepts every registration. *)
Definition no_type : APIResult (type_info raw_schemas) :=
  mkAPIResult 0 "" (mkTypeInfo false 0 "" None false ([], [])).

Definition quiet (reachable : string -> Z -> option Version) : Externals :=
  externals reachable (fun _ _ => no_type) (fun _ _ => mkAPIResult 0 "" tt).

(** A pool of the three endpoints, none with a socket, as a sequential client
    has it when its current node, the first, has been lost. *)
Definition pool3 : list endpoint :=
  [ mkEndpoint "127.0.0.1" 10801 false false;
    mkEndpoint "127.0.0.1" 10802 false false;
    mkEndpoint "127.0.0.1" 10803 false false ].

(** The same pool on a network where only the third endpoint answers, and on
    one where none does. *)
Definition net3 : Externals := quiet (only_ports [10803] (1, 2, 0)).

Definition lost3 : @state net3 := @mkState net3 false ∅ pool3 0 None 0 [].



(** A network where only the second endpoint answers, for [Client.connect]
    of a new client. *)
Definition net2 : Externals := quiet (only_ports [10802] (1, 2, 0)).

(** A client constructed with [partition_aware=True] on a server that speaks
    protocol 1.3.0. *)
Definition old_server : @state net3 :=
  @mkState net3 true ∅ pool3 2 (Some (1, 3, 0)) 0 [].

(** A partition-aware client on protocol 1.4.0 whose first and third nodes
    are alive, and one that has lost all its nodes while the first and the
    third endpoint answer. *)
Definition net_aware : Externals := quiet (only_ports [10801; 10803] (1, 4, 0)).

Definition aware_two_alive : @state net_aware :=
  @mkState net_aware true ∅
    [ mkEndpoint "127.0.0.1" 10801 true false;
      mkEndpoint "127.0.0.1" 10802 false true;
      mkEndpoint "127.0.0.1" 10803 true false ]
    0 (Some (1, 4, 0)) 1 [].

Definition aware_none_alive : @state net_aware :=
  @mkState net_aware true ∅ pool3 0 (Some (1, 4, 0)) 1 [].



(** A server that knows the type 42, "Person", with one schema of the single
    field "name", a string (type code 9). *)
Definition person_info : APIResult (type_info raw_schemas) :=
  mkAPIResult 0 ""
    (mkTypeInfo true 42 "Person" None false
       ([ {| field_id := 1; field_name := "name"; field_type_id := 9 |} ],
        [ (7, [1]) ])).

Definition knowing_server : Externals :=
  externals (only_ports [10801] (1, 2, 0))
    (fun _ _ => person_info) (fun _ _ => mkAPIResult 0 "" tt).

(** A new client of that server, after [connect] to the first endpoint, and
    the same client after it has queried the type 42. *)
Definition connected_to_knowing : @state knowing_server :=
  (@connect knowing_server [node1] (init false)).2.

Definition after_query : @state knowing_server :=
  (@query_binary_type knowing_server (type_by_id 42) schema_none true
     connected_to_knowing).2.

(** A data class of the type 42 without fields, whose schema ID is 0. *)
Definition person_empty : data_class := mkDataClass 42 0 "Person" [].

(** The sequential client of [lost3] after the failover of its first
    [random_node]. *)
Definition after_failover : @state net3 := (@random_node net3 lost3).2.

(** A new client of the network [net3], whose server knows no binary type,
    after [connect] to the third endpoint. *)
Definition connected_to_quiet : @state net3 :=
  (@connect net3 [node3] (init false)).2.

(** The row of the field "name" in the server's table of binary fields. *)
Definition name_field : binary_field :=
  {| field_id := 1; field_name := "name"; field_type_id := 9 |}.

(** A data class of the type 42 with the field "name", under the schema ID
    5, and the client of [connected_to_knowing] after it has registered that
    class. *)
Definition person_named : data_class := mkDataClass 42 5 "Person" [("name", 9)].

Definition after_register : @state knowing_server :=
  (@register_binary_type knowing_server person_named None connected_to_knowing).2.

End Sample.

(** * Properties *)

(** ** Partition topology *)

Section AffinityFacts.
Import Affinity.

Lemma py_insert_at_end {A : Type} (x : A) (l : list A) :
  py_insert (length l) x l = l ++ [x].
Proof.
  unfold py_insert. by rewrite take_ge, drop_ge by lia.
Qed.

Lemma alter_last {A : Type} (f : A -> A) (x : A) (l : list A) :
  alter f (length l) (l ++ [x]) = l ++ [f x].
Proof.
  replace (length l) with (length l + 0)%nat at 1 by lia.
  by rewrite alter_app_r.
Qed.

(** What the loop appends for one group: read off the first element of its
    ['cache_mapping']. *)
Lemma tidy_loop_step (pm : partition_map) (rest : list partition_map) (acc : list entry) :
  tidy_loop (length acc) (pm :: rest) acc =
  match pm with
  | applicable_group [] _ | inapplicable_group [] => Raises IndexError
  | applicable_group (c :: _) nm =>
      tidy_loop (S (length acc)) rest
        (acc ++ [mkEntry (cache_id c) true (Some (cache_config_dict (cache_config c)))
                   (Some (node_mapping_dict nm))])
  | inapplicable_group (c :: _) =>
      tidy_loop (S (length acc)) rest (acc ++ [mkEntry (empty_cache_id c) false None None])
  end.
Proof.
  destruct pm as [[|c cm] nm|[|c cm]]; simpl; try done.
  - by rewrite py_insert_at_end, !alter_last.
  - by rewrite py_insert_at_end.
Qed.

Lemma tidy_loop_entries (pms : list partition_map) (acc : list entry) :
  Forall (fun pm => group_cache_ids pm ≠ []) pms ->
  exists entries,
    tidy_loop (length acc) pms acc = Returns (acc ++ entries) /\
    Forall2 (fun pm e =>
      Some (entry_cache_id e) = group_cache_ids pm !! 0%nat /\
      entry_is_applicable e = is_applicable pm /\
      match pm with
      | applicable_group cm nm =>
          entry_cache_config e = (fun c => cache_config_dict (cache_config c)) <$> cm !! 0%nat /\
          entry_node_mapping e = Some (node_mapping_dict nm)
      | inapplicable_group _ =>
          entry_cache_config e = None /\ entry_node_mapping e = None
      end) pms entries.
Proof.
  intros Hne. revert acc. induction Hne as [|pm rest Hpm _ IH]; intros acc.
  - exists []. simpl. by rewrite app_nil_r.
  - rewrite tidy_loop_step.
    destruct pm as [[|c cm] nm|[|c cm]]; simpl in Hpm; try done.
    + destruct (IH (acc ++ [mkEntry (cache_id c) true
                              (Some (cache_config_dict (cache_config c)))
                              (Some (node_mapping_dict nm))])) as (es & Hrun & Hes).
      rewrite length_app, Nat.add_1_r in Hrun. rewrite Hrun.
      eexists (_ :: es). rewrite <- app_assoc. split; [done|].
      constructor; [|done]. simpl. done.
    + destruct (IH (acc ++ [mkEntry (empty_cache_id c) false None None]))
        as (es & Hrun & Hes).
      rewrite length_app, Nat.add_1_r in Hrun. rewrite Hrun.
      eexists (_ :: es). rewrite <- app_assoc. split; [done|].
      constructor; [|done]. simpl. done.
Qed.

(** C9. For a successful partition-topology response whose groups each name
    at least one cache, [cache_get_node_partitions] returns one entry per
    applicability group, in order; the entry of a group carries the group's
    first cache id and its [is_applicable] flag; the entry of a group that is
    not applicable has neither a ['cache_config'] nor a ['node_mapping'] key,
    and the entry of an applicable group has both. *)
Theorem inapplicable_entries_carry_no_maps
    {Conn : Type} (perform : Conn -> list Z -> APIResult response)
    (conn : Conn) (caches : caches_arg) :
  let result := perform conn (caches_list caches) in
  status result = 0 ->
  Forall (fun pm => group_cache_ids pm ≠ []) (partition_mapping (value result)) ->
  exists entries,
    cache_get_node_partitions perform conn caches =
      Returns (mkAPIResult 0 (message result)
                 (tidy_value (mkTopology
                    (version_major (value result), version_minor (value result))
                    entries))) /\
    length entries = length (partition_mapping (value result)) /\
    forall (i : nat) (pm : partition_map),
      partition_mapping (value result) !! i = Some pm ->
      exists e,
        entries !! i = Some e /\
        Some (entry_cache_id e) = group_cache_ids pm !! 0%nat /\
        entry_is_applicable e = is_applicable pm /\
        (is_applicable pm = false ->
           entry_cache_config e = None /\ entry_node_mapping e = None) /\
        (is_applicable pm = true ->
           is_Some (entry_cache_config e) /\ is_Some (entry_node_mapping e)).
Proof.
  intros result Hstatus Hne.
  destruct (tidy_loop_entries _ [] Hne) as (entries & Hrun & Hall).
  simpl in Hrun. exists entries.
  unfold cache_get_node_partitions, tidy_result. fold result.
  rewrite decide_True by done. rewrite Hrun, Hstatus.
  split; [done|]. split; [symmetry; by eapply Forall2_length|].
  intros i pm Hi.
  destruct (Forall2_lookup_l _ _ _ _ _ Hall Hi) as (e & He & Hid & Happ & Hmaps).
  exists e. do 3 (split; [done|]). split.
  - intros Hno. by destruct pm.
  - intros Hyes. destruct pm as [cm nm|]; [|done].
    destruct Hmaps as [-> ->]. split; [|by eexists].
    destruct cm; simpl in *; [done|]. by eexists.
Qed.

Lemma inapplicable_entries_carry_no_maps_witness :
  exists entries,
    cache_get_node_partitions (fun (_ : unit) _ => Sample.response_mixed) tt
      (many_caches [7; 9; 11]) =
      Returns (mkAPIResult 0 "" (tidy_value (mkTopology (1, 0) entries))) /\
    length entries = 2%nat /\
    (entry_cache_config <$> entries !! 1%nat) = Some None.
Proof.
  destruct (inapplicable_entries_carry_no_maps
              (fun (_ : unit) _ => Sample.response_mixed) tt (many_caches [7; 9; 11]))
    as (entries & Hrun & Hlen & Hall).
  - reflexivity.
  - simpl. repeat constructor; simpl; discriminate.
  - exists entries. split; [exact Hrun|]. split; [exact Hlen|].
    destruct (Hall 1%nat _ eq_refl) as (e & -> & _ & _ & Hno & _).
    simpl. f_equal. apply Hno. reflexivity.
Defined.

(** C1, at the input of the specification's example: a successful response
    with one applicability group that covers the cache ids 7 and 9 and the
    node map {UUID-A: [0, 1, 2]}, asked for the caches 7 and 9. The result has
    a single entry, the one of cache id 7; no entry has the cache id 9. *)
Theorem shared_group_yields_one_entry :
  cache_get_node_partitions (fun (_ : unit) _ => Sample.response_7_9) tt
    (many_caches [7; 9]) =
  Returns (mkAPIResult 0 ""
             (tidy_value (mkTopology (1, 0)
                [mkEntry 7 true (Some ∅) (Some {[Sample.uuid_a := [0; 1; 2]]})]))) /\
  forall r e,
    cache_get_node_partitions (fun (_ : unit) _ => Sample.response_7_9) tt
      (many_caches [7; 9]) = Returns r ->
    match value r with
    | tidy_value t => e ∈ topology_mapping t -> entry_cache_id e ≠ 9
    | raw_value _ => False
    end.
Proof.
  split; [reflexivity|].
  intros r e Hr. vm_compute in Hr. injection Hr as <-. simpl.
  intros He. apply list_elem_of_singleton in He. subst e. simpl. lia.
Qed.

End AffinityFacts.

(** ** Node pool *)

(** Unfolds the monad and the updates of the state. *)
Ltac run_monad :=
  unfold Client.bind, Client.gets, Client.get_node, Client.set_node, Client.modify,
    Client.ret, Client.raise, Client.lift, Client.with_registry, Client.with_nodes,
    Client.with_current_node, Client.with_protocol_version, Client.with_draws,
    Client.with_log, Client.with_partition_aware in *;
  cbn in *.

Section PoolFacts.
Import Client.
Context {E : Externals}.

(** [protocol_version >= (1, 4, 0)] compares the tuples position by
    position. *)
Lemma version_ge_floor (a b c : Z) :
  version_ge (a, b, c) (1, 4, 0) = true <->
  1 < a \/ (a = 1 /\ 4 < b) \/ (a = 1 /\ b = 4 /\ 0 ≤ c).
Proof.
  unfold version_ge. repeat case_bool_decide; split; intros; try lia; try done.
Qed.

Lemma learn_version_flag (b : bool) (r : option Version) (w : state) :
  learn_version r (with_partition_aware b w) =
  with_partition_aware b (learn_version r w).
Proof.
  unfold learn_version. simpl. destruct r, (_protocol_version w); done.
Qed.

(** The scan of [random_node] neither reads nor writes [_partition_aware]. *)
Lemma try_nodes_flag (b : bool) (order : list nat) (w : state) :
  try_nodes order (with_partition_aware b w) =
  ((try_nodes order w).1, with_partition_aware b (try_nodes order w).2).
Proof.
  revert w. induction order as [|i rest IH]; intros [pa reg ns cur pv dr lg]; [done|].
  simpl. unfold call_connect, learn_version. run_monad.
  destruct (ns !! i) as [c|]; [|done].
  destruct (conn_connect c (host c) (port c)) as [c' [v|]]; simpl.
  - by destruct pv.
  - exact (IH (mkState pa _ _ _ _ _ _)).
Qed.

Lemma sequential_node_flag (b : bool) (w : state) :
  sequential_node (with_partition_aware b w) =
  ((sequential_node w).1, with_partition_aware b (sequential_node w).2).
Proof.
  destruct w as [pa reg ns cur pv dr lg].
  unfold sequential_node. run_monad.
  destruct (ns !! cur) as [c|] eqn:Hc; [|done].
  destruct (alive c); [done|]. cbn. rewrite ?Hc. cbn.
  case_bool_decide; exact (try_nodes_flag b _ (mkState pa _ _ _ _ _ _)).
Qed.

(** C8. For a client constructed with [partition_aware=True], the property
    [partition_aware] is true exactly when a protocol version has been
    negotiated and it is at least (1, 4, 0), compared position by position;
    when it is false, [random_node] is the sequential failover, which runs
    as it does for a client constructed with [partition_aware=False]. *)
Theorem partition_awareness_needs_version_floor (w : state) :
  _partition_aware w = true ->
  (partition_aware w = true <->
   exists a b c, _protocol_version w = Some (a, b, c) /\
     (1 < a \/ (a = 1 /\ 4 < b) \/ (a = 1 /\ b = 4 /\ 0 ≤ c))) /\
  (partition_aware w = false ->
   (_protocol_version w = None \/
    exists v, _protocol_version w = Some v /\ version_ge v (1, 4, 0) = false) /\
   random_node w = sequential_node w /\
   random_node w =
     ((random_node (with_partition_aware false w)).1,
      with_partition_aware true (random_node (with_partition_aware false w)).2)).
Proof.
  intros Hflag. unfold partition_aware, partition_awareness_supported_by_protocol,
    protocol_version. rewrite Hflag. simpl. split.
  - destruct (_protocol_version w) as [[[a b] c]|].
    + rewrite version_ge_floor. split.
      * intros H. by exists a, b, c.
      * intros (a' & b' & c' & [= <- <- <-] & H). done.
    + split; [done|]. intros (a & b & c & [=] & _).
  - intros Hoff. split.
    + destruct (_protocol_version w) as [v|]; [right; by exists v|by left].
    + assert (Hseq : random_node w = sequential_node w).
      { unfold random_node, bind, gets, partition_aware,
          partition_awareness_supported_by_protocol, protocol_version.
        rewrite Hflag. simpl. by rewrite Hoff. }
      split; [done|]. rewrite Hseq.
      assert (Hplain : random_node (with_partition_aware false w) =
                       sequential_node (with_partition_aware false w)) by done.
      rewrite Hplain, sequential_node_flag. cbn [fst snd].
      assert (Hw : with_partition_aware true w = w)
        by (destruct w; simpl in *; by subst).
      pose proof (sequential_node_flag true w) as Hrun. rewrite Hw in Hrun.
      destruct (sequential_node w) as [r w']. cbn [fst snd] in *.
      rewrite Hrun at 1. by destruct w'.
Qed.

(** [learn_version] only writes [_protocol_version]. *)
Lemma learn_version_fields (r : option Version) (w : state) :
  log (learn_version r w) = log w /\
  _nodes (learn_version r w) = _nodes w /\
  _current_node (learn_version r w) = _current_node w /\
  _registry (learn_version r w) = _registry w /\
  draws (learn_version r w) = draws w /\
  _partition_aware (learn_version r w) = _partition_aware w.
Proof.
  unfold learn_version. by destruct r, (_protocol_version w).
Qed.

Lemma learn_version_nodes (r : option Version) (w : state) :
  _nodes (learn_version r w) = _nodes w.
Proof. apply learn_version_fields. Qed.

Lemma learn_version_log (r : option Version) (w : state) :
  log (learn_version r w) = log w.
Proof. apply learn_version_fields. Qed.

Lemma learn_version_current_node (r : option Version) (w : state) :
  _current_node (learn_version r w) = _current_node w.
Proof. apply learn_version_fields. Qed.

Lemma learn_version_partition_aware (r : option Version) (w : state) :
  _partition_aware (learn_version r w) = _partition_aware w.
Proof. apply learn_version_fields. Qed.

Lemma learn_version_registry (r : option Version) (w : state) :
  _registry (learn_version r w) = _registry w.
Proof. apply learn_version_fields. Qed.




Lemma after_connect_fields (i : nat) (c : Conn) (w : state) :
  log (after_connect i c w) = log w ++ [connect_event c] /\
  _nodes (after_connect i c w) = <[i := (conn_connect c (host c) (port c)).1]> (_nodes w) /\
  _current_node (after_connect i c w) = _current_node w /\
  _registry (after_connect i c w) = _registry w /\
  draws (after_connect i c w) = draws w /\
  _partition_aware (after_connect i c w) = _partition_aware w.
Proof.
  unfold after_connect, learn_version.
  by destruct (conn_connect c (host c) (port c)).2, w, _protocol_version0.
Qed.

(** One turn of the scan. *)
Lemma try_nodes_cons (i : nat) (rest : list nat) (w : state) (c : Conn) :
  _nodes w !! i = Some c ->
  try_nodes (i :: rest) w =
  if connects c then (Returns i, after_connect i c w)
  else try_nodes rest (after_connect i c w).
Proof.
  intros Hc. simpl. unfold bind at 1. unfold get_node at 1. rewrite Hc.
  unfold bind at 1. unfold call_connect, after_connect, connects, connect_event, connects.
  destruct (conn_connect c (host c) (port c)) as [c' r]. cbn [fst snd].
  unfold bind, set_node, modify, ret. by destruct (handshake_ok r).
Qed.


Lemma random_node_sequential (w : state) :
  partition_aware w = false -> random_node w = sequential_node w.
Proof.
  intros Hoff. unfold random_node, bind, gets. by rewrite Hoff.
Qed.

(** The sequential failover on a current node that is not alive: the node is
    closed, the index advanced, and the scan started. *)
Lemma sequential_node_lost (w : state) (node : Conn) :
  _nodes w !! _current_node w = Some node ->
  alive node = false ->
  let n := length (_nodes w) in
  let next := if bool_decide (n ≤ S (_current_node w))%nat then 0%nat
              else S (_current_node w) in
  let closed :=
    with_current_node next
      (with_nodes (fun ns => <[_current_node w := close node]> ns) w) in
  sequential_node w = try_nodes (scan_order next n) closed.
Proof.
  intros Hnode Hdead n next closed. subst n next closed.
  unfold sequential_node. run_monad. rewrite Hnode. cbn. rewrite Hdead.
  rewrite Hnode. cbn. rewrite ?length_insert.
  case_bool_decide; cbn; by rewrite ?length_insert.
Qed.


Lemma after_reconnect_fields (i : nat) (c : Conn) (w : state) :
  log (after_reconnect i c w) = log w ++ [reconnect_event c] /\
  _nodes (after_reconnect i c w) = <[i := (conn_reconnect c).1]> (_nodes w) /\
  _current_node (after_reconnect i c w) = _current_node w /\
  _registry (after_reconnect i c w) = _registry w /\
  draws (after_reconnect i c w) = draws w /\
  _partition_aware (after_reconnect i c w) = _partition_aware w.
Proof.
  unfold after_reconnect, learn_version, reconnect_event.
  by destruct (conn_reconnect c).2, w, _protocol_version0.
Qed.

(** One turn of the reconnection loop. *)
Lemma reconnect_nodes_cons (i : nat) (rest : list nat) (w : state) (c : Conn) :
  _nodes w !! i = Some c ->
  reconnect_nodes (i :: rest) w = reconnect_nodes rest (after_reconnect i c w).
Proof.
  intros Hc. simpl. unfold bind at 1. unfold get_node at 1. rewrite Hc.
  unfold bind at 1. unfold call_reconnect, after_reconnect.
  destruct (conn_reconnect c) as [c' r]. cbn [fst snd].
  unfold bind, set_node, modify. done.
Qed.

(** The reconnection loop over the tail [cs] of the pool: each node is
    reconnected once, in pool order. *)
Lemma reconnect_nodes_run (before cs : list Conn) (w : state) :
  _nodes w = before ++ cs ->
  exists w',
    reconnect_nodes (seq (length before) (length cs)) w = (Returns tt, w') /\
    _nodes w' = before ++ ((fun c => (conn_reconnect c).1) <$> cs) /\
    log w' = log w ++ (reconnect_event <$> cs) /\
    draws w' = draws w /\
    _current_node w' = _current_node w /\
    _registry w' = _registry w.
Proof.
  revert before w. induction cs as [|c cs IH]; intros before w Hnodes.
  - exists w. simpl. by rewrite Hnodes, !app_nil_r.
  - destruct (after_reconnect_fields (length before) c w)
      as (Hlog & Hns & Hcur & Hreg & Hdr & _).
    cbn [length seq].
    rewrite (reconnect_nodes_cons _ _ w c)
      by (rewrite Hnodes; apply list_lookup_middle; done).
    destruct (IH (before ++ [(conn_reconnect c).1]) (after_reconnect (length before) c w))
      as (w' & Hrun & Hns' & Hlog' & Hdr' & Hcur' & Hreg').
    { rewrite Hns, Hnodes.
      replace (length before) with (length before + 0)%nat at 1 by lia.
      rewrite insert_app_r. cbn. by rewrite <- app_assoc. }
    rewrite length_app, Nat.add_1_r in Hrun.
    exists w'. rewrite Hrun, Hns', Hlog', Hdr', Hcur', Hreg', Hlog, Hdr, Hcur, Hreg.
    cbn. by rewrite <- !app_assoc.
Qed.

(** [alive_nodes] lists the positions of the alive nodes, each once. *)
Lemma alive_nodes_elem (w : state) (i : nat) :
  i ∈ alive_nodes w <-> exists c, _nodes w !! i = Some c /\ alive c = true.
Proof.
  unfold alive_nodes. rewrite list_elem_of_filter, elem_of_seq. split.
  - intros [Halive _]. destruct (_nodes w !! i) as [c|]; [|done]. by exists c.
  - intros (c & Hc & Halive). rewrite Hc. split; [done|].
    apply lookup_lt_Some in Hc. lia.
Qed.

Lemma alive_nodes_NoDup (w : state) : NoDup (alive_nodes w).
Proof. apply NoDup_filter, NoDup_seq. Qed.

(** [random.choice] on a list that is not empty, with a generator that
    respects its bound. *)
Lemma random_choice_run {A : Type} (l : list A) (w : state) :
  (forall k n, (0 < n)%nat -> (randbelow k n < n)%nat) ->
  l ≠ [] ->
  exists x, l !! randbelow (draws w) (length l) = Some x /\
            random_choice l w = (Returns x, with_draws (S (draws w)) w).
Proof.
  intros Hrand Hl.
  destruct (lookup_lt_is_Some_2 l (randbelow (draws w) (length l))) as [x Hx].
  { apply Hrand. destruct l; [done|simpl; lia]. }
  exists x. split; [done|]. unfold random_choice. rewrite Hx. by destruct l.
Qed.

Lemma get_random_node_pick (again : M nat) (reconnect : bool) (w : state) :
  alive_nodes w ≠ [] ->
  _get_random_node_body again reconnect w = random_choice (alive_nodes w) w.
Proof.
  intros Hne. unfold _get_random_node_body, bind, gets.
  by destruct (alive_nodes w).
Qed.

(** C7. In a pool where partition awareness is in use, [random_node] draws a
    position of the list of alive nodes, which holds every alive node of the
    pool once, and returns the node there. When no node is alive, every
    node of the pool is reconnected once, in pool order; after that the draw
    is made if a node is alive, and [ReconnectError] is raised if none is,
    with no further reconnection. *)
Theorem partition_aware_selection (w : state) :
  (forall k n, (0 < n)%nat -> (randbelow k n < n)%nat) ->
  partition_aware w = true ->
  let pick (w : state) := alive_nodes w !! randbelow (draws w) (length (alive_nodes w)) in
  (forall i, (exists r, alive_nodes w !! r = Some i) <->
             (exists c, _nodes w !! i = Some c /\ alive c = true)) /\
  (forall i r1 r2,
     alive_nodes w !! r1 = Some i -> alive_nodes w !! r2 = Some i -> r1 = r2) /\
  (alive_nodes w ≠ [] ->
   exists i, pick w = Some i /\
             random_node w = (Returns i, with_draws (S (draws w)) w)) /\
  (alive_nodes w = [] ->
   exists w1,
     _nodes w1 = (fun c => (conn_reconnect c).1) <$> _nodes w /\
     log w1 = log w ++ (reconnect_event <$> _nodes w) /\
     draws w1 = draws w /\
     (alive_nodes w1 ≠ [] ->
      exists i, pick w1 = Some i /\
                random_node w = (Returns i, with_draws (S (draws w1)) w1)) /\
     (alive_nodes w1 = [] ->
      random_node w = (Raises (ReconnectError "Can not reconnect: out of nodes."), w1))).
Proof.
  intros Hrand Hon pick.
  assert (Hsel : random_node w = _get_random_node true w)
    by (unfold random_node, bind, gets; by rewrite Hon).
  rewrite Hsel. unfold _get_random_node. repeat split.
  - intros [r Hr]. apply alive_nodes_elem. by eapply list_elem_of_lookup_2.
  - intros Hi. apply alive_nodes_elem, list_elem_of_lookup in Hi. done.
  - intros i r1 r2 H1 H2. eapply NoDup_lookup; [apply alive_nodes_NoDup|done..].
  - intros Hne. rewrite get_random_node_pick by done.
    by apply random_choice_run.
  - intros Hnone.
    destruct (reconnect_nodes_run [] (_nodes w) w eq_refl)
      as (w1 & Hrun & Hns & Hlog & Hdr & _).
    cbn in Hrun, Hns. exists w1. repeat split; try done.
    + intros Hne. destruct (random_choice_run (alive_nodes w1) w1 Hrand Hne)
        as (i & Hi & Hpick).
      exists i. split; [done|].
      unfold _get_random_node_body at 1. unfold bind at 1. unfold gets at 1.
      rewrite Hnone. unfold bind at 1. unfold gets at 1. unfold bind at 1.
      rewrite Hrun. by rewrite get_random_node_pick.
    + intros Hnone1.
      unfold _get_random_node_body at 1. unfold bind at 1. unfold gets at 1.
      rewrite Hnone. unfold bind at 1. unfold gets at 1. unfold bind at 1.
      rewrite Hrun. unfold _get_random_node_body, bind, gets. by rewrite Hnone1.
Qed.





(** Once a version is known and partition awareness is not in use, a
    candidate is added to the pool without a connection attempt. *)
Lemma connect_node_known_sequential (i : nat) (node : string * Z) (w : state) :
  is_Some (_protocol_version w) ->
  partition_aware w = false ->
  connect_node i node w =
  (Returns tt, with_nodes (fun ns => ns ++ [new_connection node.1 node.2]) w).
Proof.
  destruct node as [h p]. intros [v Hv] Hoff.
  unfold connect_node, protocol_version. run_monad.
  rewrite Hv, Hoff. cbn. by rewrite ?Hv.
Qed.


Lemma connect_loop_known_sequential (nodes : list (string * Z)) (i : nat) (w : state) :
  is_Some (_protocol_version w) ->
  partition_aware w = false ->
  connect_loop i nodes w =
  (Returns tt,
   with_nodes (fun ns => ns ++ ((fun n => new_connection n.1 n.2) <$> nodes)) w).
Proof.
  revert i w. induction nodes as [|node rest IH]; intros i w Hv Hoff.
  - simpl. unfold ret, with_nodes. simpl. rewrite app_nil_r. by destruct w.
  - simpl. unfold bind. rewrite connect_node_known_sequential by done.
    rewrite IH by done. unfold with_nodes. simpl. by rewrite <- app_assoc.
Qed.



End PoolFacts.

(** ** Binary type registry *)

Section RegistryFacts.
Import Client.
Context {E : Externals}.

Lemma touch_lookup (t : Z) (registry : gmap Z (gmap Z DataClass)) :
  default ∅ (touch t registry !! t) = default ∅ (registry !! t).
Proof.
  unfold touch. destruct (registry !! t) as [d|] eqn:Hd.
  - by rewrite Hd.
  - by rewrite lookup_insert_eq.
Qed.

Lemma touch_idem (t : Z) (registry : gmap Z (gmap Z DataClass)) :
  touch t (touch t registry) = touch t registry.
Proof.
  unfold touch. destruct (registry !! t) as [d|] eqn:Hd.
  - by rewrite Hd.
  - by rewrite lookup_insert_eq.
Qed.

Lemma touch_present (t : Z) (registry : gmap Z (gmap Z DataClass)) (d : gmap Z DataClass) :
  registry !! t = Some d -> touch t registry = registry.
Proof. intros Hd. unfold touch. by rewrite Hd. Qed.

(** A lookup in the registry returns what the registry holds and leaves at
    most a new empty dict for the type. *)
Lemma get_from_registry_run (t : Z) (schema : schema_arg) (w : state) :
  _get_from_registry t schema w =
  (Returns (registry_lookup t schema (_registry w)), with_registry (touch t) w).
Proof.
  unfold _get_from_registry, registry_lookup, registry_item, bind, ret.
  cbn. destruct (schema_truthy schema); rewrite touch_lookup; [|done].
  by destruct (default ∅ (_registry w !! t) !! schema_id schema).
Qed.

Lemma registry_lookup_touch (t : Z) (schema : schema_arg)
    (registry : gmap Z (gmap Z DataClass)) :
  registry_lookup t schema (touch t registry) = registry_lookup t schema registry.
Proof. unfold registry_lookup. by rewrite touch_lookup. Qed.

(** C10. [query_binary_type] does not read its [sync] parameter: with
    [sync=True] and with [sync=False] it returns the same and leaves the same
    state, network log included. *)
Theorem query_binary_type_ignores_sync
    (binary_type : binary_type_arg) (schema : schema_arg) (w : state) :
  query_binary_type binary_type schema true w =
  query_binary_type binary_type schema false w.
Proof. reflexivity. Qed.

(** C6. When a call of [query_binary_type] has returned a result that is
    true (a data class, or a dict of data classes that is not empty), a
    second call with the same type and schema on the state the first one
    left returns the same result and leaves that state as it is: nothing is
    added to the network log. *)
Theorem query_binary_type_cached
    (binary_type : binary_type_arg) (schema : schema_arg) (sync sync' : bool)
    (w w1 : state) (r : registry_result) :
  query_binary_type binary_type schema sync w = (Returns r, w1) ->
  truthy r = true ->
  query_binary_type binary_type schema sync' w1 = (Returns r, w1) /\
  log (query_binary_type binary_type schema sync' w1).2 = log w1.
Proof.
  intros Hfirst Htrue.
  assert (Hlookup : registry_lookup (entity_id binary_type) schema (_registry w1) = r /\
                    with_registry (touch (entity_id binary_type)) w1 = w1).
  { unfold query_binary_type in Hfirst. unfold bind at 1 in Hfirst.
    rewrite get_from_registry_run in Hfirst.
    destruct (truthy (registry_lookup _ schema (_registry w))) eqn:Hhit;
      cbn [negb] in Hfirst.
    - injection Hfirst as <- <-. cbn.
      rewrite registry_lookup_touch. split; [done|].
      unfold with_registry. cbn. by rewrite touch_idem.
    - unfold bind at 1 in Hfirst.
      destruct (get_binary_type _ _) as [[ti|e] w2]; [|done].
      unfold bind at 1 in Hfirst.
      destruct (_sync_binary_registry _ ti w2) as [[[]|e] w3]; [|done].
      rewrite get_from_registry_run in Hfirst.
      injection Hfirst as <- <-. cbn.
      rewrite registry_lookup_touch. split; [done|].
      unfold with_registry. cbn. by rewrite touch_idem. }
  destruct Hlookup as [Hr Hsame].
  assert (Hsecond : query_binary_type binary_type schema sync' w1 = (Returns r, w1)).
  { unfold query_binary_type. unfold bind at 1.
    rewrite get_from_registry_run, Hr, Htrue, Hsame. done. }
  by rewrite Hsecond.
Qed.

(** *** Node selection leaves the registry alone *)

Lemma try_nodes_registry (order : list nat) (w : state) :
  _registry (try_nodes order w).2 = _registry w.
Proof.
  revert w. induction order as [|i rest IH]; intros w; [done|].
  destruct (_nodes w !! i) as [c|] eqn:Hc.
  - rewrite (try_nodes_cons i rest w c Hc).
    destruct (connects c); [|rewrite IH]; apply after_connect_fields.
  - simpl. unfold bind, get_node. by rewrite Hc.
Qed.

Lemma sequential_node_registry (w : state) :
  _registry (sequential_node w).2 = _registry w.
Proof.
  destruct (_nodes w !! _current_node w) as [c|] eqn:Hc.
  - destruct (alive c) eqn:Halive.
    + unfold sequential_node. run_monad. rewrite Hc. cbn. by rewrite Halive.
    + rewrite (sequential_node_lost w c Hc Halive). by rewrite try_nodes_registry.
  - unfold sequential_node. run_monad. by rewrite Hc.
Qed.

Lemma random_choice_registry {A : Type} (l : list A) (w : state) :
  _registry (random_choice l w).2 = _registry w.
Proof.
  unfold random_choice. destruct l; [done|].
  by destruct (_ !! _).
Qed.

Lemma get_random_node_registry (reconnect : bool) (w : state) :
  _registry (_get_random_node reconnect w).2 = _registry w.
Proof.
  assert (Hlast : forall w', _registry
            (_get_random_node_body
               (raise (ReconnectError "Can not reconnect: out of nodes.")) false w').2 =
            _registry w').
  { intros w'. unfold _get_random_node_body, bind, gets, raise.
    destruct (alive_nodes w') eqn:Hal; [done|].
    rewrite <- Hal. apply random_choice_registry. }
  unfold _get_random_node. destruct reconnect; [|apply Hlast].
  unfold _get_random_node_body at 1. unfold bind at 1. unfold gets at 1.
  destruct (alive_nodes w) eqn:Hal.
  - destruct (reconnect_nodes_run [] (_nodes w) w eq_refl)
      as (w1 & Hrun & _ & _ & _ & _ & Hreg).
    cbn in Hrun. unfold bind at 1. unfold gets at 1. unfold bind at 1.
    rewrite Hrun. by rewrite Hlast.
  - rewrite <- Hal. apply random_choice_registry.
Qed.

Lemma random_node_registry (w : state) :
  _registry (random_node w).2 = _registry w.
Proof.
  unfold random_node, bind, gets. destruct (partition_aware w).
  - apply get_random_node_registry.
  - apply sequential_node_registry.
Qed.

(** The two requests, sent to the node that [random_node] returned. *)
Lemma get_binary_type_run (binary_type : binary_type_arg)
    (w w1 : state) (i : nat) (conn : Conn) :
  random_node w = (Returns i, w1) ->
  _nodes w1 !! i = Some conn ->
  let result := api_get_binary_type (log w1) conn binary_type in
  let w2 := with_log
              (fun l => l ++ [ev_get_binary_type (host conn) (port conn) binary_type]) w1 in
  get_binary_type binary_type w =
  if bool_decide (status result ≠ 0) then
    (Raises (BinaryTypeError (message result)), w2)
  else
    match _process_get_binary_type_result result with
    | Returns r => (Returns (value r), w2)
    | Raises e => (Raises e, w2)
    end.
Proof.
  intros Hnode Hconn result w2. subst result w2.
  unfold get_binary_type, status_to_exception, call_get_binary_type.
  unfold bind at 1. unfold bind at 1. rewrite Hnode.
  unfold bind at 1. unfold get_node at 1. rewrite Hconn.
  unfold bind at 1. unfold lift, _process_get_binary_type_result.
  case_bool_decide as Hstatus; cbn.
  - rewrite bool_decide_true by done. done.
  - destruct (type_exists _); cbn.
    + destruct (schemas _) as [fields old]. destruct (convert_schemas old fields []); cbn.
      * rewrite bool_decide_false by (intros Hne; by apply Hne). done.
      * done.
    + rewrite bool_decide_false by (intros Hne; by apply Hne). done.
Qed.

Lemma put_binary_type_run (type_name : string) (affinity_key_field : option string)
    (is_enum : bool) (schema : Schema) (w w1 : state) (i : nat) (conn : Conn) :
  random_node w = (Returns i, w1) ->
  _nodes w1 !! i = Some conn ->
  let result :=
    api_put_binary_type (log w1) conn type_name affinity_key_field is_enum schema in
  let w2 := with_log
              (fun l => l ++ [ev_put_binary_type (host conn) (port conn) type_name]) w1 in
  put_binary_type type_name affinity_key_field is_enum schema w =
  if bool_decide (status result ≠ 0) then
    (Raises (BinaryTypeError (message result)), w2)
  else (Returns tt, w2).
Proof.
  intros Hnode Hconn result w2. subst result w2.
  unfold put_binary_type, status_to_exception, call_put_binary_type.
  unfold bind at 1. unfold bind at 1. rewrite Hnode.
  unfold bind at 1. unfold get_node at 1. rewrite Hconn.
  case_bool_decide; [done|]. by destruct (value _).
Qed.


(** The type description request leaves the registry alone, whatever the
    answer. *)
Lemma get_binary_type_registry (binary_type : binary_type_arg) (w : state) :
  _registry (get_binary_type binary_type w).2 = _registry w.
Proof.
  pose proof (random_node_registry w) as Hrn.
  destruct (random_node w) as [[i|e] w1] eqn:Hnode; cbn in Hrn.
  - destruct (_nodes w1 !! i) as [conn|] eqn:Hconn.
    + rewrite (get_binary_type_run binary_type w w1 i conn Hnode Hconn).
      case_bool_decide; [done|]. by destruct (_process_get_binary_type_result _).
    + unfold get_binary_type, status_to_exception.
      unfold bind at 1. unfold bind at 1. rewrite Hnode.
      unfold bind at 1. unfold get_node. by rewrite Hconn.
  - unfold get_binary_type, status_to_exception.
    unfold bind at 1. unfold bind at 1. by rewrite Hnode.
Qed.

(** A lookup elsewhere in the registry does not see the empty dict that a
    lookup leaves. *)
Lemma registry_lookup_touch_any (t t' : Z) (schema : schema_arg)
    (registry : gmap Z (gmap Z DataClass)) :
  registry_lookup t schema (touch t' registry) = registry_lookup t schema registry.
Proof.
  destruct (decide (t = t')) as [->|Hne]; [apply registry_lookup_touch|].
  unfold registry_lookup, touch.
  destruct (registry !! t'); [done|]. by rewrite lookup_insert_ne.
Qed.

(** [query_binary_type] on a miss, when the server answers the type
    description request with a status that is not 0: it raises
    [BinaryTypeError] with the server's message; the registry has at most
    gained the empty dict of the lookup, and holds what it held. *)
Lemma query_binary_type_failed_request
    (binary_type : binary_type_arg) (schema : schema_arg) (sync : bool)
    (w w1 : state) (i : nat) (conn : Conn) :
  let t := entity_id binary_type in
  truthy (registry_lookup t schema (_registry w)) = false ->
  random_node (with_registry (touch t) w) = (Returns i, w1) ->
  _nodes w1 !! i = Some conn ->
  let result := api_get_binary_type (log w1) conn (type_by_id t) in
  status result ≠ 0 ->
  exists w2,
    query_binary_type binary_type schema sync w =
      (Raises (BinaryTypeError (message result)), w2) /\
    _registry w2 = touch t (_registry w) /\
    forall t' schema',
      registry_lookup t' schema' (_registry w2) =
      registry_lookup t' schema' (_registry w).
Proof.
  intros t Hmiss Hnode Hconn result Hstatus. subst result.
  assert (Hreg : _registry w1 = touch t (_registry w)).
  { pose proof (random_node_registry (with_registry (touch t) w)) as H.
    by rewrite Hnode in H. }
  unfold query_binary_type. fold t. unfold bind at 1.
  rewrite get_from_registry_run, Hmiss. cbn [negb]. unfold bind at 1.
  rewrite (get_binary_type_run (type_by_id t) _ w1 i conn Hnode Hconn).
  rewrite bool_decide_true by done.
  eexists. split; [done|]. cbn. rewrite Hreg. split; [done|].
  intros t' schema'. apply registry_lookup_touch_any.
Qed.

(** [register_binary_type] of a class that the lookup did not find, when the
    server answers the registration request with a status that is not 0: it
    raises [BinaryTypeError] with the server's message and the class is not
    put in the registry, which stays as the lookup left it. *)
Lemma register_binary_type_failed_request
    (data_class : DataClass) (affinity_key_field : option string)
    (w wq w1 : state) (known : registry_result) (i : nat) (conn : Conn) :
  query_binary_type (type_by_id (class_type_id data_class))
    (schema_int (class_schema_id data_class)) true w = (Returns known, wq) ->
  truthy known = false ->
  random_node wq = (Returns i, w1) ->
  _nodes w1 !! i = Some conn ->
  let result :=
    api_put_binary_type (log w1) conn (class_type_name data_class)
      affinity_key_field false (class_schema data_class) in
  status result ≠ 0 ->
  exists w2,
    register_binary_type data_class affinity_key_field w =
      (Raises (BinaryTypeError (message result)), w2) /\
    _registry w2 = _registry wq.
Proof.
  intros Hquery Hmiss Hnode Hconn result Hstatus. subst result.
  assert (Hreg : _registry w1 = _registry wq).
  { pose proof (random_node_registry wq) as H. by rewrite Hnode in H. }
  unfold register_binary_type. unfold bind at 1. rewrite Hquery, Hmiss. cbn [negb].
  unfold bind at 1.
  rewrite (put_binary_type_run _ _ _ _ wq w1 i conn Hnode Hconn).
  rewrite bool_decide_true by done. eexists. split; [done|]. done.
Qed.

Lemma with_registry_touch_present (t : Z) (w : state) (d : gmap Z DataClass) :
  _registry w !! t = Some d -> with_registry (touch t) w = w.
Proof.
  intros Hd. unfold with_registry. rewrite (touch_present t _ d Hd). by destruct w.
Qed.

(** C4, at the inputs where it fails: a data class whose schema ID is 0, as
    that of a class without fields, registered while the registry holds
    some data class of the same type. The schema ID 0 is false, so
    [_get_from_registry] returns the dict of the type, which is true:
    [register_binary_type] sends no request at all, whatever the server
    knows, and sets the registry entry of schema ID 0. *)
Theorem register_schema_id_zero_sends_nothing
    (data_class : DataClass) (affinity_key_field : option string)
    (w : state) (d : gmap Z DataClass) :
  class_schema_id data_class = 0 ->
  _registry w !! class_type_id data_class = Some d ->
  d ≠ ∅ ->
  register_binary_type data_class affinity_key_field w =
  (Returns tt,
   with_registry
     (fun registry => <[class_type_id data_class := <[0 := data_class]> d]> registry) w).
Proof.
  intros Hzero Hd Hne.
  unfold register_binary_type, query_binary_type. rewrite Hzero.
  unfold bind at 1. unfold bind at 1. rewrite get_from_registry_run.
  cbn [entity_id].
  rewrite (with_registry_touch_present _ w d Hd).
  unfold registry_lookup. cbn. rewrite Hd. cbn.
  rewrite (bool_decide_false (0 ≠ 0)) by (intros H; by apply H). cbn.
  unfold registry_set, registry_item, bind, ret, modify. cbn.
  repeat (rewrite (bool_decide_false (d = ∅)) by done; cbn).
  rewrite (with_registry_touch_present _ w d Hd).
  unfold with_registry. do 2 f_equal.
  apply map_eq. intros k. destruct (decide (class_type_id data_class = k)) as [<-|Hk].
  - by rewrite lookup_alter_eq, lookup_insert_eq, Hd.
  - by rewrite lookup_alter_ne, lookup_insert_ne.
Qed.

Lemma alter_touch_lookup (t : Z) (f : gmap Z DataClass -> gmap Z DataClass)
    (registry : gmap Z (gmap Z DataClass)) :
  default ∅ (alter f t (touch t registry) !! t) = f (default ∅ (registry !! t)).
Proof.
  rewrite lookup_alter_eq. unfold touch.
  destruct (registry !! t) as [d|] eqn:Hd.
  - by rewrite Hd.
  - by rewrite lookup_insert_eq.
Qed.

(** [registry_set] returns, and writes one entry of the registry. *)
Lemma registry_set_run (t s : Z) (data_class : DataClass) (w : state) :
  registry_set t s data_class w =
  (Returns tt,
   with_registry (fun registry =>
     alter (fun d => <[s := data_class]> d) t (touch t registry)) w).
Proof. unfold registry_set, registry_item, bind, modify, with_registry. by destruct w. Qed.

(** The synchronisation loop returns, writes only the registry, and leaves
    for the type the schema IDs that were there and those of the schemas it
    was given. *)
Lemma sync_schemas_run (t : Z) (name : string) (ss : list Schema) (w : state) :
  exists registry',
    sync_schemas t name ss w = (Returns tt, with_registry (fun _ => registry') w) /\
    forall s,
      is_Some (default ∅ (registry' !! t) !! s) <->
      is_Some (default ∅ (_registry w !! t) !! s) \/
      s ∈ (fun schema => schema_id (schema_dict schema)) <$> ss.
Proof.
  revert w. induction ss as [|schema rest IH]; intros w.
  - exists (_registry w). split.
    + simpl. unfold ret, with_registry. by destruct w.
    + intros s. cbn [fmap list_fmap]. rewrite elem_of_nil. tauto.
  - cbn [sync_schemas]. unfold bind at 1. unfold registry_item at 1. cbn zeta.
    cbn [_registry with_registry]. rewrite touch_lookup. unfold bind at 1.
    destruct (default ∅ (_registry w !! t) !! schema_id (schema_dict schema))
      as [c|] eqn:Hc.
    + unfold ret at 1.
      destruct (IH (with_registry (touch t) w)) as (registry' & Hrun & Hids).
      exists registry'. rewrite Hrun. split; [by destruct w|].
      intros s. rewrite Hids. cbn [_registry with_registry]. rewrite touch_lookup.
      rewrite fmap_cons, elem_of_cons. split; [tauto|].
      intros [H|[->|H]]; [tauto| |tauto]. left. by rewrite Hc.
    + rewrite registry_set_run.
      match goal with |- context [sync_schemas t name rest ?w1] =>
        destruct (IH w1) as (registry' & Hrun & Hids) end.
      exists registry'. rewrite Hrun. split; [by destruct w|].
      intros s. rewrite Hids. cbn [_registry with_registry].
      rewrite touch_idem, alter_touch_lookup.
      rewrite fmap_cons, elem_of_cons.
      destruct (decide (s = schema_id (schema_dict schema))) as [->|Hne].
      * rewrite lookup_insert_eq. split; [intros _; right; by left|intros _; left; done].
      * rewrite lookup_insert_ne by done. tauto.
Qed.

(** [register_binary_type] of a class whose schema ID is not 0 and that is
    in the registry: nothing is sent. *)
Lemma register_cached_class_sends_nothing
    (data_class : DataClass) (affinity_key_field : option string)
    (w : state) (c : DataClass) :
  class_schema_id data_class ≠ 0 ->
  default ∅ (_registry w !! class_type_id data_class) !! class_schema_id data_class
    = Some c ->
  exists w',
    register_binary_type data_class affinity_key_field w = (Returns tt, w') /\
    log w' = log w.
Proof.
  intros Hs Hc. unfold register_binary_type, query_binary_type.
  unfold bind at 1. unfold bind at 1. rewrite get_from_registry_run.
  unfold registry_lookup. cbn [entity_id schema_truthy schema_id].
  rewrite bool_decide_true by done. rewrite Hc. cbn [truthy negb].
  unfold ret at 1. cbn [truthy negb]. unfold bind at 1. unfold ret at 1.
  rewrite registry_set_run. eexists. split; [done|]. done.
Qed.

(** [register_binary_type] of a class whose schema ID is not 0 and that is
    not in the registry, when the type description request succeeds: a
    registration request follows exactly when the server's description
    lists no schema of that ID. *)
Lemma register_uncached_class_asks_server
    (data_class : DataClass) (affinity_key_field : option string)
    (w w2 : state) (info : type_info (list Schema)) :
  let t := class_type_id data_class in
  let s := class_schema_id data_class in
  s ≠ 0 ->
  default ∅ (_registry w !! t) !! s = None ->
  get_binary_type (type_by_id t) (with_registry (touch t) w) = (Returns info, w2) ->
  exists w3,
    _sync_binary_registry t info w2 = (Returns tt, w3) /\
    log w3 = log w2 /\
    if type_exists info &&
       bool_decide (s ∈ (fun schema => schema_id (schema_dict schema)) <$> schemas info)
    then
      exists w',
        register_binary_type data_class affinity_key_field w = (Returns tt, w') /\
        log w' = log w2
    else
      register_binary_type data_class affinity_key_field w =
      (put_binary_type (class_type_name data_class) affinity_key_field false
         (class_schema data_class) ;;;
       registry_set t s data_class) (with_registry (touch t) w3).
Proof.
  intros t s Hs Hmiss Hget.
  set (ids := (fun schema => schema_id (schema_dict schema)) <$> schemas info).
  assert (Hmiss2 : default ∅ (_registry w2 !! t) !! s = None).
  { assert (Hreg : _registry w2 = touch t (_registry w)).
    { pose proof (get_binary_type_registry (type_by_id t) (with_registry (touch t) w))
        as H.
      by rewrite Hget in H. }
    by rewrite Hreg, touch_lookup. }
  assert (Hsync : exists registry3,
            _sync_binary_registry t info w2 =
              (Returns tt, with_registry (fun _ => registry3) w2) /\
            (is_Some (default ∅ (registry3 !! t) !! s) <->
             type_exists info = true /\ s ∈ ids)).
  { unfold _sync_binary_registry. destruct (type_exists info).
    - destruct (sync_schemas_run t (type_name info) (schemas info) w2)
        as (registry3 & Hrun & Hids).
      exists registry3. split; [done|]. rewrite Hids, Hmiss2.
      split; [intros [[? [=]]|H]; done|intros [_ H]; by right].
    - exists (_registry w2). split; [unfold ret, with_registry; by destruct w2|].
      rewrite Hmiss2. split; [intros [? [=]]|intros [[=] _]]. }
  destruct Hsync as (registry3 & Hsync & Hlisted).
  eexists. split; [exact Hsync|]. split; [done|].
  assert (Hrun : register_binary_type data_class affinity_key_field w =
            ((if negb (truthy (registry_lookup t (schema_int s) registry3))
              then put_binary_type (class_type_name data_class) affinity_key_field
                     false (class_schema data_class)
              else ret tt) ;;;
             registry_set t s data_class)
              (with_registry (touch t) (with_registry (fun _ => registry3) w2))).
  { unfold register_binary_type, query_binary_type. fold t. fold s.
    cbn [entity_id]. unfold bind at 1. unfold bind at 1.
    rewrite get_from_registry_run.
    unfold registry_lookup at 1. cbn [schema_truthy schema_id].
    rewrite bool_decide_true by done. rewrite Hmiss. cbn [truthy negb].
    unfold bind at 1. rewrite Hget. unfold bind at 1. rewrite Hsync.
    rewrite get_from_registry_run. reflexivity. }
  rewrite Hrun. unfold registry_lookup. cbn [schema_truthy schema_id].
  rewrite (bool_decide_true (s ≠ 0)) by done.
  destruct (default ∅ (registry3 !! t) !! s) as [c|] eqn:Hc.
  - destruct Hlisted as [Hlisted _].
    destruct Hlisted as [-> Hin]; [by eexists|].
    rewrite bool_decide_true by done. cbn [truthy negb andb].
    unfold bind at 1. unfold ret at 1. rewrite registry_set_run.
    eexists. split; [done|]. done.
  - assert (Hnot : type_exists info && bool_decide (s ∈ ids) = false).
    { destruct (type_exists info); [|done]. cbn.
      apply bool_decide_eq_false. intros Hin.
      destruct Hlisted as [_ Hlisted]. destruct Hlisted as [? [=]]. done. }
    rewrite Hnot. done.
Qed.

(** Whenever [register_binary_type] returns, the registry entry of the
    class's type ID and schema ID is the class. *)
Lemma register_binary_type_overwrites
    (data_class : DataClass) (affinity_key_field : option string) (w w' : state) :
  register_binary_type data_class affinity_key_field w = (Returns tt, w') ->
  default ∅ (_registry w' !! class_type_id data_class) !! class_schema_id data_class =
  Some data_class.
Proof.
  unfold register_binary_type. unfold bind at 1.
  destruct (query_binary_type _ _ _ w) as [[known|e] wq]; [|done].
  unfold bind at 1.
  assert (Hset : forall wp,
            registry_set (class_type_id data_class) (class_schema_id data_class)
              data_class wp = (Returns tt, w') ->
            default ∅ (_registry w' !! class_type_id data_class)
              !! class_schema_id data_class = Some data_class).
  { intros wp. unfold registry_set, registry_item, bind, modify. cbn.
    intros [= <-]. cbn. rewrite lookup_alter_eq.
    unfold touch. destruct (_registry wp !! class_type_id data_class) as [d|] eqn:Hd.
    - rewrite Hd. cbn. by rewrite lookup_insert_eq.
    - rewrite lookup_insert_eq. cbn. by rewrite lookup_insert_eq. }
  destruct (negb (truthy known)).
  - destruct (put_binary_type _ _ _ _ wq) as [[[]|e] wp]; [|done]. apply Hset.
  - unfold ret. apply Hset.
Qed.

End RegistryFacts.

(** ** The properties on the sample clients *)

Section Examples.
Import Client Sample.


(** The same from a new client: [connect] to the three endpoints, of which
    only the third answers, then [random_node]. *)
Example failover_after_connect :
  ((@connect net3 [node1; node2; node3] ;;; random_node) (init false)).1 =
  Returns 2%nat.
Proof. reflexivity. Qed.



(** A partition-aware client with two alive nodes draws among them; one
    with no alive node reconnects all three, in pool order, and then
    draws. *)
Lemma partition_aware_selection_witness :
  @random_node net_aware aware_two_alive =
    (Returns 2%nat, with_draws 2 aware_two_alive) /\
  exists w1,
    (@random_node net_aware aware_none_alive).1 = Returns 2%nat /\
    (@random_node net_aware aware_none_alive).2 = with_draws 2 w1 /\
    log w1 = [ev_reconnect "127.0.0.1" 10801 true;
              ev_reconnect "127.0.0.1" 10802 false;
              ev_reconnect "127.0.0.1" 10803 true].
Proof.
  assert (Hrand : forall k n, (0 < n)%nat -> (@randbelow net_aware k n < n)%nat).
  { intros k n Hn. simpl. apply Nat.mod_upper_bound. lia. }
  split.
  - pose proof (@partition_aware_selection net_aware aware_two_alive Hrand eq_refl) as H.
    cbv zeta in H. destruct H as (_ & _ & Hpick & _).
    destruct Hpick as (i & Hi & Hrun); [discriminate|].
    rewrite Hrun. injection Hi as <-. reflexivity.
  - pose proof (@partition_aware_selection net_aware aware_none_alive Hrand eq_refl) as H.
    cbv zeta in H. destruct H as (_ & _ & _ & Hnone).
    destruct (Hnone eq_refl) as (w1 & Hns & Hlog & Hdr & Hpick & _).
    assert (Halive : alive_nodes w1 = [0; 2]%nat).
    { unfold alive_nodes. rewrite Hns. reflexivity. }
    destruct Hpick as (i & Hi & Hrun); [by rewrite Halive|].
    rewrite Halive, Hdr in Hi. injection Hi as <-.
    exists w1. rewrite Hrun, Hdr. repeat split. exact Hlog.
Defined.

(** A client constructed with [partition_aware=True] on protocol 1.3.0 is not
    partition-aware, and selects its node by sequential failover. *)
Lemma partition_awareness_needs_version_floor_witness :
  @partition_aware net3 old_server = false /\
  @random_node net3 old_server = @sequential_node net3 old_server.
Proof.
  pose proof (@partition_awareness_needs_version_floor net3 old_server eq_refl)
    as [_ Hoff].
  destruct (Hoff eq_refl) as (_ & Hseq & _).
  split; [reflexivity|exact Hseq].
Defined.


(** A first query of the type 42 asks the server and caches its schema; the
    second returns the same from the registry. *)
Lemma query_binary_type_cached_witness :
  exists r w1,
    @query_binary_type knowing_server (type_by_id 42) schema_none true
      connected_to_knowing = (Returns r, w1) /\
    log w1 = log connected_to_knowing
               ++ [ev_get_binary_type "127.0.0.1" 10801 (type_by_id 42)] /\
    @query_binary_type knowing_server (type_by_id 42) schema_none true w1 =
      (Returns r, w1).
Proof.
  pose (run := @query_binary_type knowing_server (type_by_id 42) schema_none true
                 connected_to_knowing).
  assert (Hrun : exists r,
             run = (Returns r, run.2) /\ truthy r = true /\
             log run.2 = log connected_to_knowing
                           ++ [ev_get_binary_type "127.0.0.1" 10801 (type_by_id 42)]).
  { eexists. split; [reflexivity|]. split; reflexivity. }
  destruct Hrun as (r & Hrun & Htrue & Hlog).
  exists r, run.2. split; [exact Hrun|]. split; [exact Hlog|].
  apply (@query_binary_type_cached knowing_server (type_by_id 42) schema_none
           true true connected_to_knowing run.2 r Hrun Htrue).
Defined.

(** The server knows the type 42 with a single schema, whose ID is not 0, and
    the client has that schema in its registry. Registering a data class of
    the type 42 whose schema ID is 0 sends nothing, although the server does
    not know a schema of that ID. *)
Lemma register_schema_id_zero_sends_nothing_witness :
  (exists w',
     @register_binary_type knowing_server person_empty None after_query =
       (Returns tt, w') /\
     log w' = log after_query) /\
  (exists info,
     (@get_binary_type knowing_server (type_by_id 42) after_query).1 = Returns info /\
     Forall (fun s => @schema_id knowing_server (schema_dict s) ≠ 0) (schemas info)).
Proof.
  split.
  - eexists. split.
    + apply (@register_schema_id_zero_sends_nothing knowing_server person_empty None
               after_query (default ∅ (_registry after_query !! 42))).
      * reflexivity.
      * reflexivity.
      * apply (proj1 (bool_decide_eq_false _)). reflexivity.
    + reflexivity.
  - eexists. split; [reflexivity|].
    repeat constructor. intros Hzero. vm_compute in Hzero. discriminate Hzero.
Defined.

End Examples.

(** * Further properties *)

(** ** Partition topology: errors and the dicts of an entry *)

Section AffinityMore.
Import Affinity.

(** The loop either goes through all groups, none of which is empty, or
    raises [IndexError] at a group without a cache. *)
Lemma tidy_loop_outcome (pms : list partition_map) (acc : list entry) :
  (Forall (fun pm => group_cache_ids pm ≠ []) pms /\
   exists entries,
     tidy_loop (length acc) pms acc = Returns (acc ++ entries) /\
     length entries = length pms) \/
  (Exists (fun pm => group_cache_ids pm = []) pms /\
   tidy_loop (length acc) pms acc = Raises IndexError).
Proof.
  revert acc. induction pms as [|pm rest IH]; intros acc.
  - left. split; [constructor|]. exists []. by rewrite app_nil_r.
  - rewrite tidy_loop_step.
    destruct pm as [[|c cm] nm|[|c cm]].
    + right. split; [by left|done].
    + match goal with |- context [tidy_loop _ rest ?acc1] =>
        destruct (IH acc1) as [[Hall (es & Hrun & Hlen)]|[Hex Hrun]] end;
        rewrite length_app, Nat.add_1_r in Hrun; rewrite Hrun.
      * left. split; [by constructor|]. eexists (_ :: es).
        rewrite <- app_assoc. split; [done|]. simpl. by rewrite Hlen.
      * right. split; [by right|done].
    + right. split; [by left|done].
    + match goal with |- context [tidy_loop _ rest ?acc1] =>
        destruct (IH acc1) as [[Hall (es & Hrun & Hlen)]|[Hex Hrun]] end;
        rewrite length_app, Nat.add_1_r in Hrun; rewrite Hrun.
      * left. split; [by constructor|]. eexists (_ :: es).
        rewrite <- app_assoc. split; [done|]. simpl. by rewrite Hlen.
      * right. split; [by right|done].
Qed.



(** X2. The result that [cache_get_node_partitions] returns has the status
    and the message of the response. Its value is the response as it was
    decoded when the status is not 0; when the status is 0 it is the tidied
    value, with the version as the pair of the two version fields and one
    entry for each applicability group. *)
Theorem partitions_result_keeps_status
    {Conn : Type} (perform : Conn -> list Z -> APIResult response)
    (conn : Conn) (caches : caches_arg) (r : APIResult result_value) :
  let result := perform conn (caches_list caches) in
  cache_get_node_partitions perform conn caches = Returns r ->
  status r = status result /\
  message r = message result /\
  match value r with
  | raw_value v => status result ≠ 0 /\ v = value result
  | tidy_value t =>
      status result = 0 /\
      version t = (version_major (value result), version_minor (value result)) /\
      length (topology_mapping t) = length (partition_mapping (value result))
  end.
Proof.
  intros result. unfold cache_get_node_partitions, tidy_result. fold result.
  destruct (decide (status result = 0)) as [Hzero|Hnz].
  - destruct (tidy_loop_outcome (partition_mapping (value result)) [])
      as [[Hall (es & Hrun & Hlen)]|[Hex Hrun]]; simpl in Hrun; rewrite Hrun.
    + intros [= <-]. simpl. done.
    + done.
  - intros [= <-]. simpl. done.
Qed.

Lemma partitions_result_keeps_status_witness :
  exists r,
    cache_get_node_partitions (fun (_ : unit) _ => Sample.response_mixed) tt
      (one_cache 7) = Returns r /\
    status r = 0 /\
    match value r with
    | tidy_value t => version t = (1, 0) /\ length (topology_mapping t) = 2%nat
    | raw_value _ => False
    end.
Proof.
  eexists. split; [reflexivity|].
  pose proof (partitions_result_keeps_status
                (fun (_ : unit) _ => Sample.response_mixed) tt (one_cache 7) _ eq_refl)
    as (Hstatus & _ & Hvalue).
  split; [exact Hstatus|]. simpl in Hvalue. simpl. tauto.
Defined.

(** A dict comprehension over a list: a key has the value of the last item
    of the list with that key, and no value when there is none. *)
Lemma dict_comprehension_lookup {K : Type} `{Countable K} {A V : Type}
    (key : A -> K) (val : A -> V) (l : list A) (k : K) :
  foldl (fun (m : gmap K V) a => <[key a := val a]> m) ∅ l !! k =
  val <$> last (filter (fun a => key a = k) l).
Proof.
  induction l as [|a l IH] using rev_ind; [done|].
  rewrite foldl_snoc, filter_app, filter_cons, filter_nil.
  destruct (decide (key a = k)) as [<-|Hne].
  - by rewrite lookup_insert_eq, last_snoc.
  - by rewrite lookup_insert_ne, app_nil_r.
Qed.

(** X3. The dicts of a tidied entry, ['cache_config'] and ['node_mapping']:
    a key type ID maps to the affinity key field ID of the last wire item
    with that key type ID, a node UUID to the partition ids of the last wire
    item with that UUID, and a key of no wire item is not in the dict. *)
Theorem entry_dicts_take_last_item :
  (forall cfg k,
     cache_config_dict cfg !! k =
     affinity_key_field_id <$> last (filter (fun a => key_type_id a = k) cfg)) /\
  (forall nm u,
     node_mapping_dict nm !! u =
     (fun p => partition_id <$> node_partitions p)
       <$> last (filter (fun p => node_uuid p = u) nm)).
Proof.
  split.
  - intros cfg k. apply (dict_comprehension_lookup key_type_id affinity_key_field_id).
  - intros nm u.
    apply (dict_comprehension_lookup node_uuid
             (fun p => partition_id <$> node_partitions p)).
Qed.

End AffinityMore.

(** ** Node pool: closing, empty pools and what selection keeps *)

Section PoolMore.
Import Client.
Context {E : Externals}.

Lemma with_nodes_const (ns : list Conn) (f : list Conn -> list Conn) (w : state) :
  with_nodes (fun _ => ns) (with_nodes f w) = with_nodes (fun _ => ns) w.
Proof. by destruct w. Qed.

Lemma with_nodes_same (w : state) : with_nodes (fun _ => _nodes w) w = w.
Proof. by destruct w. Qed.

(** The closing loop over the tail [cs] of the pool closes each node and
    writes nothing else. *)
Lemma close_nodes_run (before cs : list Conn) (w : state) :
  _nodes w = before ++ cs ->
  close_nodes (seq (length before) (length cs)) w =
  (Returns tt, with_nodes (fun _ => before ++ (close <$> cs)) w).
Proof.
  revert before w. induction cs as [|c cs IH]; intros before w Hnodes.
  - rewrite app_nil_r in Hnodes. cbn. unfold ret.
    by rewrite app_nil_r, <- Hnodes, with_nodes_same.
  - cbn [length seq close_nodes]. unfold bind at 1. unfold get_node at 1.
    rewrite Hnodes, list_lookup_middle by done.
    unfold bind at 1. unfold set_node, modify.
    pose proof (IH (before ++ [close c])
                  (with_nodes (fun ns => <[length before := close c]> ns) w)) as Hrest.
    rewrite length_app, Nat.add_1_r in Hrest. rewrite Hrest.
    + rewrite with_nodes_const. cbn. by rewrite <- app_assoc.
    + cbn. rewrite Hnodes.
      replace (length before) with (length before + 0)%nat at 1 by lia.
      rewrite insert_app_r. cbn. by rewrite <- app_assoc.
Qed.

(** X4. [Client.close] returns and leaves the pool empty; the current index,
    the protocol version, the registry and the policy flag stay as they
    were. Closing a closed client changes nothing. *)
Theorem close_empties_pool_only (w : state) :
  client_close w = (Returns tt, with_nodes (fun _ => []) w) /\
  client_close (with_nodes (fun _ => []) w) = (Returns tt, with_nodes (fun _ => []) w).
Proof.
  assert (Hclose : forall w', client_close w' = (Returns tt, with_nodes (fun _ => []) w')).
  { intros w'. unfold client_close. unfold bind at 1. unfold gets at 1.
    pose proof (close_nodes_run [] (_nodes w') w' eq_refl) as Hrun.
    cbn [length app] in Hrun.
    unfold bind at 1. rewrite Hrun.
    unfold modify. by rewrite with_nodes_const. }
  split; [apply Hclose|]. rewrite Hclose. by rewrite with_nodes_const.
Qed.

(** X5. [random_node] on an empty pool, as before [connect] or after
    [close]: without partition awareness the indexing of the pool raises
    [IndexError]; with it, no node is alive, there is none to reconnect,
    and [ReconnectError] is raised. Nothing is changed or sent. *)
Theorem random_node_on_empty_pool (w : state) :
  _nodes w = [] ->
  random_node w =
  (Raises (if partition_aware w
           then ReconnectError "Can not reconnect: out of nodes."
           else IndexError), w).
Proof.
  intros Hempty. unfold random_node, bind, gets.
  destruct (partition_aware w).
  - assert (Hnone : alive_nodes w = []) by (unfold alive_nodes; by rewrite Hempty).
    unfold _get_random_node. unfold _get_random_node_body at 1.
    unfold bind at 1. unfold gets at 1. rewrite Hnone.
    unfold bind at 1. unfold gets at 1. rewrite Hempty. cbn [length seq reconnect_nodes].
    unfold bind at 1. unfold ret at 1.
    unfold _get_random_node_body, bind, gets. by rewrite Hnone.
  - unfold sequential_node, bind, gets, get_node. by rewrite Hempty.
Qed.

Lemma connect_known_sequential (nodes : list (string * Z)) (w : state) :
  is_Some (_protocol_version w) ->
  partition_aware w = false ->
  connect nodes w =
  (Returns tt,
   with_nodes (fun ns => ns ++ ((fun n => new_connection n.1 n.2) <$> nodes)) w).
Proof.
  intros [v Hv] Hoff. unfold connect. unfold bind at 1.
  rewrite connect_loop_known_sequential by (rewrite ?Hv; done).
  unfold bind, gets, protocol_version. cbn. by rewrite Hv.
Qed.

(** X6. [Client.connect] on a client that knows a protocol version and does
    not use partition awareness, such as a sequential client that was
    closed: no connection is opened and nothing is sent; each candidate is
    added to the pool as a new, unconnected node, and the current index is
    left where it was. *)
Theorem connect_with_known_version_opens_nothing
    (nodes : list (string * Z)) (w : state) :
  is_Some (_protocol_version w) ->
  partition_aware w = false ->
  connect nodes w =
  (Returns tt,
   with_nodes (fun ns => ns ++ ((fun n => new_connection n.1 n.2) <$> nodes)) w).
Proof. apply connect_known_sequential. Qed.

(** The sequential failover with a current index past the end of the
    pool. *)
Lemma sequential_node_out_of_range (w : state) :
  (length (_nodes w) ≤ _current_node w)%nat ->
  sequential_node w = (Raises IndexError, w).
Proof.
  intros Hlen. unfold sequential_node, bind, gets, get_node.
  by rewrite lookup_ge_None_2.
Qed.

(** X7. A sequential client that knows a protocol version is closed and then
    connected to fewer candidates than its current index: [close] keeps the
    index and [connect] opens nothing, so the index is past the end of the
    new pool and the next [random_node] raises [IndexError]. *)
Theorem stale_index_after_close (nodes : list (string * Z)) (w : state) :
  is_Some (_protocol_version w) ->
  partition_aware w = false ->
  (length nodes ≤ _current_node w)%nat ->
  (client_close ;;; connect nodes ;;; random_node) w =
  (Raises IndexError,
   with_nodes (fun _ => (fun n => new_connection n.1 n.2) <$> nodes) w).
Proof.
  intros Hv Hoff Hlen.
  assert (Hclose : client_close w = (Returns tt, with_nodes (fun _ => []) w)).
  { unfold client_close. unfold bind at 1. unfold gets at 1.
    pose proof (close_nodes_run [] (_nodes w) w eq_refl) as Hrun.
    cbn [length app] in Hrun.
    unfold bind at 1. rewrite Hrun.
    unfold modify. by rewrite with_nodes_const. }
  unfold bind at 1. rewrite Hclose. unfold bind at 1.
  rewrite connect_known_sequential by (by destruct w).
  rewrite random_node_sequential by (by destruct w).
  rewrite sequential_node_out_of_range.
  - by destruct w.
  - destruct w. cbn in *. rewrite length_fmap. lia.
Qed.

(** *** What node selection keeps *)

Lemma try_nodes_frame (order : list nat) (w : state) :
  length (_nodes (try_nodes order w).2) = length (_nodes w) /\
  _partition_aware (try_nodes order w).2 = _partition_aware w /\
  _current_node (try_nodes order w).2 = _current_node w /\
  forall i, (try_nodes order w).1 = Returns i -> (i < length (_nodes w))%nat.
Proof.
  revert w. induction order as [|i rest IH]; intros w; [done|].
  destruct (_nodes w !! i) as [c|] eqn:Hc.
  - rewrite (try_nodes_cons i rest w c Hc).
    destruct (after_connect_fields i c w) as (_ & Hns & Hcur & _ & _ & Hflag).
    destruct (connects c).
    + cbn [fst snd]. rewrite Hns, Hcur, Hflag, length_insert.
      repeat split. intros j [= <-]. by eapply lookup_lt_Some.
    + destruct (IH (after_connect i c w)) as (Hlen & Hflag' & Hcur' & Hin).
      rewrite Hlen, Hflag', Hcur', Hns, Hcur, Hflag, length_insert.
      repeat split. intros j Hj. specialize (Hin j Hj).
      by rewrite Hns, length_insert in Hin.
  - simpl. unfold bind, get_node. rewrite Hc. done.
Qed.

Lemma reconnect_nodes_flag (positions : list nat) (w : state) :
  _partition_aware (reconnect_nodes positions w).2 = _partition_aware w.
Proof.
  revert w. induction positions as [|i rest IH]; intros w; [done|].
  destruct (_nodes w !! i) as [c|] eqn:Hc.
  - rewrite (reconnect_nodes_cons i rest w c Hc), IH.
    apply after_reconnect_fields.
  - simpl. unfold bind, get_node. by rewrite Hc.
Qed.

Lemma random_choice_frame {A : Type} (l : list A) (w : state) :
  (random_choice l w).2 = w \/
  (random_choice l w).2 = with_draws (S (draws w)) w.
Proof.
  unfold random_choice. destruct l; [by left|]. destruct (_ !! _); by right.
Qed.

Lemma random_choice_elem {A : Type} (l : list A) (w : state) (x : A) :
  (random_choice l w).1 = Returns x -> x ∈ l.
Proof.
  unfold random_choice. destruct l as [|a l]; [done|].
  destruct (_ !! _) as [y|] eqn:Hy; [|done].
  intros [= <-]. by eapply list_elem_of_lookup_2.
Qed.

Lemma alive_nodes_with_draws (k : nat) (w : state) :
  alive_nodes (with_draws k w) = alive_nodes w.
Proof. done. Qed.

Lemma get_random_node_reconnects (w w1 : state) :
  alive_nodes w = [] ->
  reconnect_nodes (seq 0 (length (_nodes w))) w = (Returns tt, w1) ->
  _get_random_node true w =
  _get_random_node_body
    (raise (ReconnectError "Can not reconnect: out of nodes.")) false w1.
Proof.
  intros Hnone Hrun. unfold _get_random_node.
  unfold _get_random_node_body at 1. unfold bind at 1. unfold gets at 1.
  rewrite Hnone. unfold bind at 1. unfold gets at 1. unfold bind at 1.
  by rewrite Hrun.
Qed.

(** [_get_random_node] ends on the pool as it was or as the reconnection of
    all nodes left it, either with a draw among the alive nodes of that pool
    or, when it has none, with [ReconnectError]. *)
Lemma get_random_node_cases (reconnect : bool) (w : state) :
  exists w1,
    length (_nodes w1) = length (_nodes w) /\
    _registry w1 = _registry w /\
    _partition_aware w1 = _partition_aware w /\
    _current_node w1 = _current_node w /\
    (_get_random_node reconnect w = random_choice (alive_nodes w1) w1 \/
     _get_random_node reconnect w =
       (Raises (ReconnectError "Can not reconnect: out of nodes."), w1)).
Proof.
  assert (Hlast : forall w',
            _get_random_node_body
              (raise (ReconnectError "Can not reconnect: out of nodes.")) false w' =
              random_choice (alive_nodes w') w' \/
            _get_random_node_body
              (raise (ReconnectError "Can not reconnect: out of nodes.")) false w' =
              (Raises (ReconnectError "Can not reconnect: out of nodes."), w')).
  { intros w'. unfold _get_random_node_body, bind, gets, raise.
    destruct (alive_nodes w'); [by right|by left]. }
  unfold _get_random_node.
  destruct (alive_nodes w) eqn:Halive.
  - destruct reconnect.
    + destruct (reconnect_nodes_run [] (_nodes w) w eq_refl)
        as (w1 & Hrun & Hns & _ & _ & Hcur & Hreg).
      cbn in Hrun, Hns.
      pose proof (reconnect_nodes_flag (seq 0 (length (_nodes w))) w) as Hflag.
      rewrite Hrun in Hflag. cbn in Hflag.
      exists w1. rewrite Hns, length_fmap. do 4 (split; [done|]).
      fold (_get_random_node true w).
      rewrite (get_random_node_reconnects w w1 Halive Hrun). apply Hlast.
    + exists w. do 4 (split; [done|]). apply Hlast.
  - exists w. do 4 (split; [done|]). left.
    unfold _get_random_node_body, bind, gets. rewrite Halive. by destruct reconnect.
Qed.

(** X8. [random_node], under either policy and whatever it returns or
    raises, keeps the number of nodes in the pool, the registry and the
    policy flag; the node it returns is a node of the pool; and a current
    index that designates a node designates one afterwards. *)
Theorem random_node_keeps_pool (w : state) :
  length (_nodes (random_node w).2) = length (_nodes w) /\
  _registry (random_node w).2 = _registry w /\
  _partition_aware (random_node w).2 = _partition_aware w /\
  (forall i, (random_node w).1 = Returns i -> (i < length (_nodes w))%nat) /\
  ((_current_node w < length (_nodes w))%nat ->
   (_current_node (random_node w).2 < length (_nodes (random_node w).2))%nat).
Proof.
  split; [|split; [apply random_node_registry|]].
  all: unfold random_node, bind, gets; destruct (partition_aware w).
  - destruct (get_random_node_cases true w) as (w1 & Hlen & _ & _ & _ & [Hrun|Hrun]);
      rewrite Hrun; [|done].
    destruct (random_choice_frame (alive_nodes w1) w1) as [->| ->]; done.
  - destruct (_nodes w !! _current_node w) as [c|] eqn:Hc.
    + destruct (alive c) eqn:Halive.
      * unfold sequential_node, bind, gets, get_node. rewrite Hc. by rewrite Halive.
      * rewrite (sequential_node_lost w c Hc Halive).
        destruct (try_nodes_frame
                    (scan_order
                       (if bool_decide (length (_nodes w) ≤ S (_current_node w))%nat
                        then 0%nat else S (_current_node w)) (length (_nodes w)))
                    (with_current_node
                       (if bool_decide (length (_nodes w) ≤ S (_current_node w))%nat
                        then 0%nat else S (_current_node w))
                       (with_nodes (fun ns => <[_current_node w := close c]> ns) w)))
          as (Hlen & _). rewrite Hlen. cbn. by rewrite length_insert.
    + unfold sequential_node, bind, gets, get_node. by rewrite Hc.
  - destruct (get_random_node_cases true w)
      as (w1 & Hlen & _ & Hflag & Hcur & [Hrun|Hrun]); rewrite Hrun.
    + split; [|split].
      * destruct (random_choice_frame (alive_nodes w1) w1) as [->| ->]; done.
      * intros i Hi. apply random_choice_elem, alive_nodes_elem in Hi.
        destruct Hi as (c & Hc & _). rewrite <- Hlen. by eapply lookup_lt_Some.
      * intros Hin.
        destruct (random_choice_frame (alive_nodes w1) w1) as [->| ->]; cbn; lia.
    + cbn. split; [done|]. split; [done|]. lia.
  - destruct (_nodes w !! _current_node w) as [c|] eqn:Hc.
    + destruct (alive c) eqn:Halive.
      * unfold sequential_node, bind, gets, get_node. rewrite Hc. cbn.
        rewrite Halive. cbn. split; [done|]. split; [|done].
        intros i [= <-]. by eapply lookup_lt_Some.
      * rewrite (sequential_node_lost w c Hc Halive).
        apply lookup_lt_Some in Hc.
        match goal with |- context [try_nodes ?o ?w1] =>
          destruct (try_nodes_frame o w1) as (Hlen & Hflag & Hcur & Hin) end.
        rewrite Hlen, Hflag, Hcur. cbn in Hin |- *. rewrite length_insert in Hin |- *.
        split; [done|]. split; [done|]. intros _. case_bool_decide; lia.
    + unfold sequential_node, bind, gets, get_node. rewrite Hc. cbn.
      split; [done|]. split; [done|]. intros Hin.
      apply lookup_ge_None_1 in Hc. lia.
Qed.

(** X9. When partition awareness is in use, the node that [random_node]
    returns is an alive node of the pool it leaves. *)
Theorem partition_aware_node_is_alive (w w' : state) (i : nat) :
  partition_aware w = true ->
  random_node w = (Returns i, w') ->
  exists c, _nodes w' !! i = Some c /\ alive c = true.
Proof.
  intros Hon. unfold random_node, bind, gets. rewrite Hon.
  destruct (get_random_node_cases true w) as (w1 & _ & _ & _ & _ & [Hrun|Hrun]);
    rewrite Hrun; [|done].
  intros Hpick.
  assert (Hin : i ∈ alive_nodes w1)
    by (apply (random_choice_elem _ w1); by rewrite Hpick).
  apply alive_nodes_elem in Hin.
  destruct (random_choice_frame (alive_nodes w1) w1) as [Hw|Hw];
    rewrite Hpick in Hw; cbn in Hw; by subst w'.
Qed.

(** *** The current index after [Client.connect] *)

(** A turn of the loop of [Client.connect] adds one node and leaves the
    current index or sets it to the turn's number. *)
Lemma connect_node_index (i : nat) (node : string * Z) (w : state) :
  exists w', connect_node i node w = (Returns tt, w') /\
             length (_nodes w') = S (length (_nodes w)) /\
             (_current_node w' = _current_node w \/ _current_node w' = i).
Proof.
  destruct node as [h p]. unfold connect_node, call_connect, call_reconnect.
  run_monad.
  destruct (bool_decide (protocol_version w = None) || partition_aware w); cbn.
  - destruct (conn_connect (new_connection h p) h p) as [c r]. cbn.
    destruct (handshake_ok r); cbn.
    + match goal with |- context [negb (partition_aware ?x)] =>
        destruct (partition_aware x) end; cbn;
        eexists; (split; [done|]); cbn;
        rewrite length_app, Nat.add_1_r, ?learn_version_nodes,
          ?learn_version_current_node; cbn; auto.
    + match goal with |- context [partition_aware ?x] =>
        destruct (partition_aware x) end; cbn.
      * destruct (conn_reconnect (set_failed c)) as [c' r']. cbn.
        eexists. split; [done|]. cbn.
        rewrite length_app, Nat.add_1_r, !learn_version_nodes,
          !learn_version_current_node. cbn.
        rewrite ?learn_version_current_node. cbn. auto.
      * eexists. split; [done|]. cbn.
        rewrite length_app, Nat.add_1_r, learn_version_nodes,
          learn_version_current_node. cbn. auto.
  - eexists. split; [done|]. cbn. rewrite length_app, Nat.add_1_r. auto.
Qed.

Lemma connect_loop_index (nodes : list (string * Z)) (i : nat) (w : state) :
  (i ≤ length (_nodes w))%nat ->
  (_current_node w < length (_nodes w) \/ _current_node w ≤ i)%nat ->
  nodes ≠ [] ->
  exists w', connect_loop i nodes w = (Returns tt, w') /\
             length (_nodes w') = (length (_nodes w) + length nodes)%nat /\
             (_current_node w' < length (_nodes w'))%nat.
Proof.
  revert i w. induction nodes as [|node rest IH]; intros i w Hi Hcur Hne; [done|].
  destruct (connect_node_index i node w) as (w1 & Hrun1 & Hlen1 & Hcur1).
  cbn [connect_loop]. unfold bind at 1. rewrite Hrun1.
  assert (Hin : (_current_node w1 < length (_nodes w1))%nat) by lia.
  destruct rest as [|node' rest'].
  - exists w1. split; [done|]. cbn. split; [lia|done].
  - destruct (IH (S i) w1) as (w' & Hrun & Hlen & Hcur'); [lia|by left|done|].
    exists w'. rewrite Hrun. split; [done|]. split; [|done].
    rewrite Hlen, Hlen1. cbn. lia.
Qed.

(** X10. [Client.connect] with at least one candidate, on a client whose
    current index is 0 or designates a node: whether it returns or raises,
    every candidate has been added to the pool and the current index
    designates a node of it, so that the indexing in [random_node] is in
    range. *)
Theorem connect_leaves_index_in_range (nodes : list (string * Z)) (w : state) :
  (_current_node w < length (_nodes w) \/ _current_node w = 0)%nat ->
  nodes ≠ [] ->
  length (_nodes (connect nodes w).2) = (length (_nodes w) + length nodes)%nat /\
  (_current_node (connect nodes w).2 < length (_nodes (connect nodes w).2))%nat.
Proof.
  intros Hcur Hne.
  destruct (connect_loop_index nodes 0 w) as (w' & Hrun & Hlen & Hin);
    [lia|lia|done|].
  unfold connect, bind, gets. rewrite Hrun.
  by destruct (protocol_version w').
Qed.

End PoolMore.

(** ** Binary type registry: conversion, synchronisation and round trips *)

Section RegistryMore.
Import Client.
Context {E : Externals}.

(** The data class that a registry holds for a type ID and a schema ID. *)
Local Abbreviation held registry t s := (default ∅ (registry !! t) !! s).

(** *** [_convert_schema] *)

Lemma od_set_keys (k : string) (v : TypeHint) (d : Schema) :
  (od_set k v d).*1 = if decide (k ∈ d.*1) then d.*1 else d.*1 ++ [k].
Proof.
  induction d as [|[k' v'] d IH]; [done|]. cbn.
  destruct (decide (k = k')) as [->|Hne]; cbn.
  - rewrite decide_True by left. done.
  - rewrite IH. destruct (decide (k ∈ d.*1)) as [Hin|Hout].
    + rewrite decide_True by (by right). done.
    + rewrite decide_False; [done|].
      intros [?|?]%elem_of_cons; done.
Qed.

Lemma od_set_NoDup (k : string) (v : TypeHint) (d : Schema) :
  NoDup d.*1 -> NoDup (od_set k v d).*1.
Proof.
  intros Hnd. rewrite od_set_keys. destruct (decide (k ∈ d.*1)); [done|].
  apply NoDup_app. split; [done|]. split; [|apply NoDup_singleton].
  intros x Hx ->%list_elem_of_singleton. done.
Qed.

Lemma od_set_fresh (k : string) (v : TypeHint) (d : Schema) :
  k ∉ d.*1 -> od_set k v d = d ++ [(k, v)].
Proof.
  induction d as [|[k' v'] d IH]; [done|]. cbn. intros Hout.
  rewrite decide_False by (intros ->; apply Hout; left).
  rewrite IH; [done|]. intros Hin. apply Hout. by right.
Qed.

(** The binary field that [next(x for x in binary_fields if x['field_id'] ==
    field_id)] finds. *)
Local Abbreviation find_field fields fid :=
  (List.find (fun x => bool_decide (field_id x = fid)) fields).

Lemma find_field_None (fields : list binary_field) (fid : Z) :
  find_field fields fid = None <-> forall bf, bf ∈ fields -> field_id bf ≠ fid.
Proof.
  induction fields as [|bf fields IH]; cbn.
  - split; [|done]. intros _ bf Hbf. by apply elem_of_nil in Hbf.
  - case_bool_decide as Hid.
    + split; [done|]. intros Hall. destruct (Hall bf); [left|done].
    + rewrite IH. split.
      * intros Hall bf' [->|Hin]%elem_of_cons; [done|by apply Hall].
      * intros Hall bf' Hin. apply Hall. by right.
Qed.

Lemma convert_schema_loop_outcome (field_ids : list Z) (fields : list binary_field)
    (converted : Schema) :
  NoDup converted.*1 ->
  (Exists (fun fid => find_field fields fid = None) field_ids /\
   _convert_schema_loop field_ids fields converted = Raises StopIteration) \/
  (Forall (fun fid => is_Some (find_field fields fid)) field_ids /\
   exists schema,
     _convert_schema_loop field_ids fields converted = Returns schema /\
     NoDup schema.*1).
Proof.
  revert converted. induction field_ids as [|fid rest IH]; intros converted Hnd.
  - right. split; [constructor|]. by exists converted.
  - cbn. destruct (find_field fields fid) as [bf|] eqn:Hbf.
    + destruct (IH (od_set (field_name bf) (_convert_type (field_type_id bf)) converted))
        as [[Hex Hrun]|[Hall (schema & Hrun & Hnd')]].
      * by apply od_set_NoDup.
      * left. split; [by right|done].
      * right. split; [constructor; [by rewrite Hbf|done]|]. by exists schema.
    + left. split; [by left|done].
Qed.

(** X11. [_convert_schema] raises exactly when one of the field ids of the
    schema has no row in the table of binary fields, and what it raises is
    [StopIteration]; the schema it returns has no field name twice. *)
Theorem convert_schema_raises_on_unknown_field
    (field_ids : list Z) (binary_fields : list binary_field) :
  ((exists e, _convert_schema field_ids binary_fields = Raises e) <->
   exists fid, fid ∈ field_ids /\
               forall bf, bf ∈ binary_fields -> field_id bf ≠ fid) /\
  (forall e, _convert_schema field_ids binary_fields = Raises e -> e = StopIteration) /\
  (forall schema,
     _convert_schema field_ids binary_fields = Returns schema -> NoDup schema.*1).
Proof.
  unfold _convert_schema.
  destruct (convert_schema_loop_outcome field_ids binary_fields [])
    as [[Hex Hrun]|[Hall (schema & Hrun & Hnd)]]; [constructor|..]; rewrite Hrun.
  - split; [|split; [by intros e [= <-]|done]].
    split; [|by eexists]. intros _.
    apply Exists_exists in Hex as (fid & Hin & Hnone).
    exists fid. split; [done|]. by apply find_field_None.
  - split; [|split; [done|by intros schema' [= <-]]].
    split; [by intros [e ?]|].
    intros (fid & Hin & Hnone). rewrite Forall_forall in Hall.
    destruct (Hall fid Hin) as [bf Hbf].
    apply find_field_None in Hnone. by rewrite Hnone in Hbf.
Qed.

Lemma convert_schema_loop_distinct (resolved : list binary_field)
    (field_ids : list Z) (fields : list binary_field) (converted : Schema) :
  Forall2 (fun fid bf => find_field fields fid = Some bf) field_ids resolved ->
  NoDup (converted.*1 ++ (field_name <$> resolved)) ->
  _convert_schema_loop field_ids fields converted =
  Returns (converted ++
           ((fun bf => (field_name bf, _convert_type (field_type_id bf))) <$> resolved)).
Proof.
  intros Hres. revert converted.
  induction Hres as [|fid bf rest resolved Hbf _ IH]; intros converted Hnd.
  - cbn. by rewrite app_nil_r.
  - cbn. rewrite Hbf. cbn in Hnd.
    apply NoDup_app in Hnd as (Hnd1 & Hdisj & Hnd2).
    apply NoDup_cons in Hnd2 as [Hfresh Hnd2].
    assert (Hout : field_name bf ∉ converted.*1).
    { intros Hin. apply (Hdisj _ Hin). left. }
    rewrite od_set_fresh by done. rewrite IH.
    + by rewrite <- app_assoc.
    + rewrite fmap_app. cbn. rewrite <- app_assoc. cbn.
      apply NoDup_app. split; [done|]. split; [|by apply NoDup_cons].
      intros x Hx. apply Hdisj. done.
Qed.

(** X12. When every field id of the schema has a row in the table of binary
    fields and the rows found have different names, [_convert_schema]
    returns the fields in the order of the field ids, each with the name of
    the first row of its id and the type hint of that row's type code. *)
Theorem convert_schema_keeps_field_order
    (field_ids : list Z) (binary_fields resolved : list binary_field) :
  Forall2 (fun fid bf => find_field binary_fields fid = Some bf) field_ids resolved ->
  NoDup (field_name <$> resolved) ->
  _convert_schema field_ids binary_fields =
  Returns ((fun bf => (field_name bf, _convert_type (field_type_id bf))) <$> resolved).
Proof.
  intros Hres Hnd. unfold _convert_schema.
  by rewrite (convert_schema_loop_distinct resolved).
Qed.

(** *** [_process_get_binary_type_result] *)

Lemma convert_schemas_outcome (old : list (Z * list Z)) (fields : list binary_field)
    (acc : list Schema) :
  convert_schemas old fields acc = Raises StopIteration \/
  exists ss, convert_schemas old fields acc = Returns (acc ++ ss) /\
             length ss = length old.
Proof.
  revert acc. induction old as [|[s_id field_ids] old IH]; intros acc.
  - right. exists []. by rewrite app_nil_r.
  - cbn. unfold _convert_schema.
    destruct (convert_schema_loop_outcome field_ids fields [])
      as [[_ Hrun]|[_ (schema & Hrun & _)]]; [constructor|..]; rewrite Hrun.
    + by left.
    + destruct (IH (acc ++ [schema])) as [Hraise|(ss & Hret & Hlen)]; [by left|].
      right. exists (schema :: ss). rewrite Hret, <- app_assoc. cbn. by rewrite Hlen.
Qed.

(** X13. [_process_get_binary_type_result] can only raise [StopIteration],
    and only on a result with status 0 of a type that exists. What it
    returns has the status, the message and the type description of the
    result it was given, with one converted schema for each schema of the
    response when the status is 0 and the type exists. *)
Theorem process_result_keeps_description (result : APIResult (type_info raw_schemas)) :
  (forall e,
     _process_get_binary_type_result result = Raises e ->
     e = StopIteration /\ status result = 0 /\ type_exists (value result) = true) /\
  (forall r,
     _process_get_binary_type_result result = Returns r ->
     status r = status result /\
     message r = message result /\
     type_exists (value r) = type_exists (value result) /\
     type_id (value r) = type_id (value result) /\
     type_name (value r) = type_name (value result) /\
     length (schemas (value r)) =
       if bool_decide (status result = 0) && type_exists (value result)
       then length (schemas (value result)).2 else 0%nat).
Proof.
  unfold _process_get_binary_type_result. cbn zeta.
  destruct (decide (status result = 0)) as [Hzero|Hnz].
  - rewrite (bool_decide_false (status result ≠ 0)) by (intros Hne; by apply Hne).
    rewrite (bool_decide_true (status result = 0)) by done.
    destruct (type_exists (value result)) eqn:Hexists; cbn.
    + destruct (schemas (value result)) as [fields old]. cbn.
      destruct (convert_schemas_outcome old fields []) as [Hrun|(ss & Hrun & Hlen)];
        rewrite Hrun.
      * split; [by intros e [= <-]|done].
      * split; [done|]. by intros r [= <-].
    + split; [done|]. by intros r [= <-].
  - rewrite (bool_decide_true (status result ≠ 0)) by done.
    rewrite (bool_decide_false (status result = 0)) by done. cbn.
    split; [done|]. by intros r [= <-].
Qed.

(** *** [_sync_binary_registry] *)

Lemma touch_lookup_any (t t' : Z) (registry : gmap Z (gmap Z DataClass)) :
  default ∅ (touch t registry !! t') = default ∅ (registry !! t').
Proof.
  destruct (decide (t' = t)) as [->|Hne]; [apply touch_lookup|].
  unfold touch. destruct (registry !! t); [done|]. by rewrite lookup_insert_ne.
Qed.

Lemma registry_set_lookup (t s t' : Z) (data_class : DataClass)
    (registry : gmap Z (gmap Z DataClass)) :
  default ∅ (alter (fun d => <[s := data_class]> d) t (touch t registry) !! t') =
  if decide (t' = t) then <[s := data_class]> (default ∅ (registry !! t))
  else default ∅ (registry !! t').
Proof.
  destruct (decide (t' = t)) as [->|Hne].
  - apply (alter_touch_lookup t (fun d => <[s := data_class]> d)).
  - rewrite lookup_alter_ne by done. apply touch_lookup_any.
Qed.

(** The synchronisation loop writes only the registry; it keeps every class
    that was there, and each class it adds is one of the type [t], built
    from the type name and from a schema it was given, under the ID of that
    schema. *)
Lemma sync_schemas_spec (t : Z) (name : string) (ss : list Schema) (w : state) :
  exists registry',
    sync_schemas t name ss w = (Returns tt, with_registry (fun _ => registry') w) /\
    (forall t' s c, held (_registry w) t' s = Some c -> held registry' t' s = Some c) /\
    (forall t' s c,
       held registry' t' s = Some c ->
       held (_registry w) t' s = Some c \/
       t' = t /\
       exists schema,
         schema ∈ ss /\ schema_id (schema_dict schema) = s /\
         c = _create_dataclass (_create_type_name name) schema) /\
    (forall schema, schema ∈ ss ->
       is_Some (held registry' t (schema_id (schema_dict schema)))).
Proof.
  revert w. induction ss as [|schema rest IH]; intros w.
  - exists (_registry w). split; [|split; [done|split; [by left|]]].
    + simpl. unfold ret, with_registry. by destruct w.
    + intros schema Hin. by apply elem_of_nil in Hin.
  - cbn [sync_schemas]. unfold bind at 1. unfold registry_item at 1. cbn zeta.
    cbn [_registry with_registry]. rewrite touch_lookup. unfold bind at 1.
    destruct (held (_registry w) t (schema_id (schema_dict schema))) as [c0|] eqn:Hc.
    + unfold ret at 1.
      destruct (IH (with_registry (touch t) w)) as (registry' & Hrun & Hkeep & Hnew & Hall).
      cbn [_registry with_registry] in Hkeep, Hnew.
      exists registry'. rewrite Hrun. split; [by destruct w|]. split; [|split].
      * intros t' s c Hheld. apply Hkeep. by rewrite touch_lookup_any.
      * intros t' s c Hheld. destruct (Hnew t' s c Hheld) as [Hold|(-> & sch & Hin & Hs & Hcl)].
        -- left. by rewrite touch_lookup_any in Hold.
        -- right. split; [done|]. exists sch. split; [by right|done].
      * intros sch [->|Hin]%elem_of_cons; [|by apply Hall].
        exists c0. apply Hkeep. by rewrite touch_lookup_any.
    + rewrite registry_set_run.
      match goal with |- context [sync_schemas t name rest ?w1] =>
        destruct (IH w1) as (registry' & Hrun & Hkeep & Hnew & Hall) end.
      cbn [_registry with_registry] in Hkeep, Hnew. rewrite touch_idem in Hkeep, Hnew.
      exists registry'. rewrite Hrun. split; [by destruct w|]. split; [|split].
      * intros t' s c Hheld. apply Hkeep. rewrite registry_set_lookup.
        destruct (decide (t' = t)) as [->|Hne]; [|done].
        rewrite lookup_insert_ne; [done|]. intros <-. by rewrite Hheld in Hc.
      * intros t' s c Hheld. specialize (Hnew t' s c Hheld).
        rewrite registry_set_lookup in Hnew.
        destruct Hnew as [Hold|(-> & sch & Hin & Hs & Hcl)].
        -- destruct (decide (t' = t)) as [->|Hne]; [|by left].
           destruct (decide (schema_id (schema_dict schema) = s)) as [<-|Hs].
           ++ rewrite lookup_insert_eq in Hold. injection Hold as <-.
              right. split; [done|]. exists schema. split; [left|done].
           ++ rewrite lookup_insert_ne in Hold by done. by left.
        -- right. split; [done|]. exists sch. split; [by right|done].
      * intros sch [->|Hin]%elem_of_cons; [|by apply Hall].
        eexists. apply Hkeep. rewrite registry_set_lookup, decide_True by done.
        by rewrite lookup_insert_eq.
Qed.

(** What [_sync_binary_registry] does to the registry, in full. *)
Lemma sync_registry_spec (t : Z) (info : type_info (list Schema)) (w : state) :
  exists registry',
    _sync_binary_registry t info w = (Returns tt, with_registry (fun _ => registry') w) /\
    (type_exists info = false -> registry' = _registry w) /\
    (forall t' s c, held (_registry w) t' s = Some c -> held registry' t' s = Some c) /\
    (forall t' s c,
       held registry' t' s = Some c ->
       held (_registry w) t' s = Some c \/
       t' = t /\
       exists schema,
         schema ∈ schemas info /\ schema_id (schema_dict schema) = s /\
         c = _create_dataclass (_create_type_name (type_name info)) schema) /\
    (type_exists info = true ->
     forall schema, schema ∈ schemas info ->
       is_Some (held registry' t (schema_id (schema_dict schema)))).
Proof.
  unfold _sync_binary_registry. destruct (type_exists info).
  - destruct (sync_schemas_spec t (type_name info) (schemas info) w)
      as (registry' & Hrun & Hkeep & Hnew & Hall).
    exists registry'. split; [done|]. split; [done|]. split; [done|]. split; [done|].
    intros _. done.
  - exists (_registry w). split; [unfold ret, with_registry; by destruct w|].
    split; [done|]. split; [done|]. split; [by left|done].
Qed.


(** X14. [_sync_binary_registry] sends nothing and writes only the registry.
    A data class that the registry holds stays, also when the server
    describes the same type and schema; what is added are data classes of
    the described type, one under the ID of each described schema that had
    none, built from the sanitized type name and that schema. For a type
    that does not exist nothing changes at all. *)
Theorem sync_keeps_held_classes (t : Z) (info : type_info (list Schema)) (w : state) :
  exists registry',
    _sync_binary_registry t info w = (Returns tt, with_registry (fun _ => registry') w) /\
    (type_exists info = false -> registry' = _registry w) /\
    (forall t' s c, held (_registry w) t' s = Some c -> held registry' t' s = Some c) /\
    (forall t' s c,
       held registry' t' s = Some c ->
       held (_registry w) t' s = Some c \/
       t' = t /\
       exists schema,
         schema ∈ schemas info /\ schema_id (schema_dict schema) = s /\
         c = _create_dataclass (_create_type_name (type_name info)) schema) /\
    (type_exists info = true ->
     forall schema, schema ∈ schemas info ->
       is_Some (held registry' t (schema_id (schema_dict schema)))).
Proof. apply sync_registry_spec. Qed.

(** *** The two requests and the registry *)

Lemma put_binary_type_registry (name : string) (affinity_key_field : option string)
    (is_enum : bool) (schema : Schema) (w : state) :
  _registry (put_binary_type name affinity_key_field is_enum schema w).2 = _registry w.
Proof.
  pose proof (random_node_registry w) as Hrn.
  destruct (random_node w) as [[i|e] w1] eqn:Hnode; cbn in Hrn.
  - destruct (_nodes w1 !! i) as [conn|] eqn:Hconn.
    + rewrite (put_binary_type_run name affinity_key_field is_enum schema
                 w w1 i conn Hnode Hconn).
      by case_bool_decide.
    + unfold put_binary_type, status_to_exception.
      unfold bind at 1. unfold bind at 1. rewrite Hnode.
      unfold bind at 1. unfold get_node. by rewrite Hconn.
  - unfold put_binary_type, status_to_exception.
    unfold bind at 1. unfold bind at 1. by rewrite Hnode.
Qed.

(** X15. [get_binary_type] and [put_binary_type] never write the binary
    registry: whatever node is chosen, whatever reconnection that takes, and
    whether the call returns or raises, the registry is afterwards what it
    was. *)
Theorem requests_never_write_registry (w : state) :
  (forall binary_type,
     _registry (get_binary_type binary_type w).2 = _registry w) /\
  (forall name affinity_key_field is_enum schema,
     _registry (put_binary_type name affinity_key_field is_enum schema w).2 =
     _registry w).
Proof.
  split.
  - intros binary_type. apply get_binary_type_registry.
  - intros name affinity_key_field is_enum schema. apply put_binary_type_registry.
Qed.

(** *** [query_binary_type] *)

Lemma query_registry_grows (binary_type : binary_type_arg) (schema : schema_arg)
    (sync : bool) (w w' : state) (o : outcome registry_result) :
  query_binary_type binary_type schema sync w = (o, w') ->
  (forall t' s c, held (_registry w) t' s = Some c -> held (_registry w') t' s = Some c) /\
  (forall t' s c,
     held (_registry w') t' s = Some c ->
     held (_registry w) t' s = Some c \/ t' = entity_id binary_type).
Proof.
  set (t := entity_id binary_type). intros Hq.
  unfold query_binary_type in Hq. fold t in Hq. unfold bind at 1 in Hq.
  rewrite get_from_registry_run in Hq.
  destruct (truthy (registry_lookup t schema (_registry w))); cbn [negb] in Hq.
  - unfold ret in Hq. injection Hq as <- <-. cbn [_registry with_registry].
    split; intros t' s c; rewrite touch_lookup_any; auto.
  - unfold bind at 1 in Hq.
    pose proof (get_binary_type_registry (type_by_id t) (with_registry (touch t) w))
      as Hreg.
    destruct (get_binary_type (type_by_id t) (with_registry (touch t) w))
      as [[info|e] w2]; cbn [snd] in Hreg.
    + unfold bind at 1 in Hq.
      destruct (sync_registry_spec t info w2) as (registry' & Hrun & _ & Hkeep & Hnew & _).
      rewrite Hrun, get_from_registry_run in Hq. injection Hq as <- <-.
      cbn [_registry with_registry].
      rewrite Hreg in Hkeep, Hnew. cbn [_registry with_registry] in Hkeep, Hnew.
      split; intros t' s c; rewrite touch_lookup_any.
      * intros Hheld. apply Hkeep. by rewrite touch_lookup_any.
      * intros Hheld. destruct (Hnew _ _ _ Hheld) as [Hold|[-> _]]; [|by right].
        left. by rewrite touch_lookup_any in Hold.
    + injection Hq as <- <-. rewrite Hreg. cbn [_registry with_registry].
      split; intros t' s c; rewrite touch_lookup_any; auto.
Qed.

(** X16. [query_binary_type] only adds to the registry: whether it returns
    or raises, a data class that the registry held is still held, under the
    same type and schema ID, and what is new is held under the queried
    type. *)
Theorem query_only_adds_to_registry (binary_type : binary_type_arg)
    (schema : schema_arg) (sync : bool) (w : state) :
  let t := entity_id binary_type in
  let w' := (query_binary_type binary_type schema sync w).2 in
  (forall t' s c, held (_registry w) t' s = Some c -> held (_registry w') t' s = Some c) /\
  (forall t' s c,
     held (_registry w') t' s = Some c -> held (_registry w) t' s = Some c \/ t' = t).
Proof.
  intros t w'. subst t w'.
  destruct (query_binary_type binary_type schema sync w) as [o w'] eqn:Hq.
  exact (query_registry_grows _ _ _ _ _ _ Hq).
Qed.

(** X17. A type that the server does not know is not remembered as unknown.
    On a miss that the server answers with status 0 and no such type,
    [query_binary_type] returns the false value that the registry gave, has
    sent the one request, and leaves every registry lookup as it was: the
    next query of the type asks the server again. *)
Theorem unknown_type_is_not_cached
    (binary_type : binary_type_arg) (schema : schema_arg) (sync : bool)
    (w w1 : state) (i : nat) (conn : Conn) :
  let t := entity_id binary_type in
  truthy (registry_lookup t schema (_registry w)) = false ->
  random_node (with_registry (touch t) w) = (Returns i, w1) ->
  _nodes w1 !! i = Some conn ->
  let result := api_get_binary_type (log w1) conn (type_by_id t) in
  status result = 0 ->
  type_exists (value result) = false ->
  exists w2,
    query_binary_type binary_type schema sync w =
      (Returns (registry_lookup t schema (_registry w)), w2) /\
    log w2 = log w1 ++ [ev_get_binary_type (host conn) (port conn) (type_by_id t)] /\
    forall t' schema',
      registry_lookup t' schema' (_registry w2) =
      registry_lookup t' schema' (_registry w).
Proof.
  intros t Hmiss Hnode Hconn result Hstatus Hexists. subst result.
  assert (Hreg : _registry w1 = touch t (_registry w)).
  { pose proof (random_node_registry (with_registry (touch t) w)) as H.
    by rewrite Hnode in H. }
  unfold query_binary_type. fold t. unfold bind at 1.
  rewrite get_from_registry_run, Hmiss. cbn [negb]. unfold bind at 1.
  rewrite (get_binary_type_run (type_by_id t) _ w1 i conn Hnode Hconn).
  rewrite bool_decide_false by (intros Hne; by apply Hne).
  unfold _process_get_binary_type_result. cbn zeta.
  rewrite Hexists. rewrite orb_true_r. cbn [value].
  unfold bind at 1. unfold _sync_binary_registry. cbn [type_exists]. unfold ret at 1.
  rewrite get_from_registry_run. cbn [_registry with_registry with_log].
  rewrite Hreg. eexists. split; [|split].
  - by rewrite !registry_lookup_touch.
  - done.
  - intros t' schema'. cbn [_registry with_registry with_log].
    by rewrite ?Hreg, !registry_lookup_touch_any.
Qed.

(** X18. A miss that the server can resolve. When the registry holds no
    class for the type and a schema that is true, the type description
    request returns, the type exists and the description lists a schema with
    the asked schema ID, then [query_binary_type] returns the data class
    built from the sanitized type name and a listed schema with that ID, and
    sends nothing after the description request. *)
Theorem query_builds_class_from_description
    (binary_type : binary_type_arg) (schema : schema_arg) (sync : bool)
    (w w2 : state) (info : type_info (list Schema)) :
  let t := entity_id binary_type in
  schema_truthy schema = true ->
  held (_registry w) t (schema_id schema) = None ->
  get_binary_type (type_by_id t) (with_registry (touch t) w) = (Returns info, w2) ->
  type_exists info = true ->
  (exists listed, listed ∈ schemas info /\
                  schema_id (schema_dict listed) = schema_id schema) ->
  exists listed w',
    listed ∈ schemas info /\
    schema_id (schema_dict listed) = schema_id schema /\
    query_binary_type binary_type schema sync w =
      (Returns (found_class
                  (_create_dataclass (_create_type_name (type_name info)) listed)), w') /\
    log w' = log w2.
Proof.
  intros t Htrue Hmiss Hget Hexists (listed0 & Hin0 & Hid0).
  assert (Hreg : _registry w2 = touch t (_registry w)).
  { pose proof (get_binary_type_registry (type_by_id t) (with_registry (touch t) w))
      as H.
    by rewrite Hget in H. }
  destruct (sync_registry_spec t info w2) as (registry' & Hrun & _ & _ & Hnew & Hall).
  destruct (Hall Hexists listed0 Hin0) as [c Hc]. rewrite Hid0 in Hc.
  destruct (Hnew _ _ _ Hc) as [Hold|(_ & listed & Hin & Hid & ->)].
  { rewrite Hreg, touch_lookup, Hmiss in Hold. done. }
  exists listed. eexists. split; [done|]. split; [done|].
  unfold query_binary_type. fold t. unfold bind at 1.
  rewrite get_from_registry_run. unfold registry_lookup at 1.
  rewrite Htrue, Hmiss. cbn [truthy negb]. unfold bind at 1. rewrite Hget.
  unfold bind at 1. rewrite Hrun, get_from_registry_run.
  unfold registry_lookup. cbn [_registry with_registry]. rewrite Htrue, Hc.
  split; [reflexivity|]. done.
Qed.

(** *** [register_binary_type] *)

Lemma register_registry_others (data_class : DataClass)
    (affinity_key_field : option string) (w : state) (t' s' : Z) (c : DataClass) :
  (t', s') ≠ (class_type_id data_class, class_schema_id data_class) ->
  held (_registry w) t' s' = Some c ->
  held (_registry (register_binary_type data_class affinity_key_field w).2) t' s' =
  Some c.
Proof.
  intros Hne Hheld. unfold register_binary_type. unfold bind at 1.
  destruct (query_binary_type _ _ _ w) as [o wq] eqn:Hrun.
  destruct (query_registry_grows _ _ _ _ _ _ Hrun) as [Hq _].
  specialize (Hq _ _ _ Hheld). destruct o as [known|e]; cbn [snd]; [|done].
  assert (Hset : forall wp,
            _registry wp = _registry wq ->
            held (_registry
                    (registry_set (class_type_id data_class) (class_schema_id data_class)
                       data_class wp).2) t' s' = Some c).
  { intros wp Hwp. rewrite registry_set_run. cbn [snd _registry with_registry].
    rewrite registry_set_lookup, Hwp.
    destruct (decide (t' = class_type_id data_class)) as [->|Ht]; [|done].
    rewrite lookup_insert_ne; [done|]. intros <-. by apply Hne. }
  unfold bind at 1. destruct (truthy known); cbn [negb].
  - unfold ret at 1. by apply Hset.
  - pose proof (put_binary_type_registry (class_type_name data_class)
                  affinity_key_field false (class_schema data_class) wq) as Hput.
    destruct (put_binary_type _ _ _ _ wq) as [[[]|e] wp]; cbn [snd] in Hput |- *.
    + by apply Hset.
    + by rewrite Hput.
Qed.

(** X19. [register_binary_type] writes one entry of the registry. Whether it
    returns or raises, every data class held under another type or another
    schema ID is still held; when it returns, the registered data class is
    held under its own type ID and schema ID, in place of what was there. *)
Theorem register_writes_one_entry (data_class : DataClass)
    (affinity_key_field : option string) (w : state) :
  let t := class_type_id data_class in
  let s := class_schema_id data_class in
  let run := register_binary_type data_class affinity_key_field w in
  (forall t' s' c,
     (t', s') ≠ (t, s) ->
     held (_registry w) t' s' = Some c -> held (_registry run.2) t' s' = Some c) /\
  (run.1 = Returns tt -> held (_registry run.2) t s = Some data_class).
Proof.
  intros t s run. split.
  - intros t' s' c. apply register_registry_others.
  - subst run. destruct (register_binary_type data_class affinity_key_field w)
      as [o w'] eqn:Hrun. cbn [fst snd]. intros ->.
    exact (register_binary_type_overwrites _ _ _ _ Hrun).
Qed.

(** X20. Register, then query. After [register_binary_type] has returned,
    [query_binary_type] of the class's type ID and schema ID finds the
    registered class in the registry, sends nothing and leaves the client as
    it is: it returns the class itself when the schema ID is not 0, and when
    it is 0 (no schema asked) the dict of the type, which holds the class. *)
Theorem registered_class_is_found (data_class : DataClass)
    (affinity_key_field : option string) (sync : bool) (w w' : state) :
  register_binary_type data_class affinity_key_field w = (Returns tt, w') ->
  exists r,
    query_binary_type (type_by_id (class_type_id data_class))
      (schema_int (class_schema_id data_class)) sync w' = (Returns r, w') /\
    if bool_decide (class_schema_id data_class ≠ 0) then r = found_class data_class
    else exists d, r = found_dict d /\ d !! 0 = Some data_class.
Proof.
  intros Hrun. pose proof (register_binary_type_overwrites _ _ _ _ Hrun) as Hheld.
  destruct (_registry w' !! class_type_id data_class) as [d|] eqn:Hd;
    cbn [from_option id] in Hheld; [|by rewrite lookup_empty in Hheld].
  unfold query_binary_type. cbn [entity_id]. unfold bind at 1.
  rewrite get_from_registry_run.
  rewrite (with_registry_touch_present _ w' d Hd).
  unfold registry_lookup. rewrite Hd. cbn [from_option id schema_truthy schema_id].
  case_bool_decide as Hs.
  - rewrite Hheld. cbn [truthy negb]. by eexists.
  - assert (Hzero : class_schema_id data_class = 0).
    { destruct (decide (class_schema_id data_class = 0)); [done|]. by destruct Hs. }
    rewrite Hzero in Hheld. cbn [truthy].
    rewrite (bool_decide_false (d = ∅)) by (intros ->; by rewrite lookup_empty in Hheld).
    cbn [negb]. eexists. split; [done|]. by exists d.
Qed.

(** *** The [compact_footer] property *)


End RegistryMore.

(** * Further examples *)

Section MoreExamples.
Import Client Sample.

(** A new client, and a client that was connected and closed. *)
Lemma random_node_on_empty_pool_witness :
  @random_node net3 (init false) = (Raises IndexError, init false) /\
  exists w',
    (@connect net3 [node3] ;;; client_close ;;; random_node) (init false) =
    (Raises IndexError, w').
Proof.
  split.
  - apply (@random_node_on_empty_pool net3 (init false)). reflexivity.
  - eexists. reflexivity.
Defined.

(** The client of [after_failover], which knows the protocol version 1.2.0,
    connected to the third endpoint once more: the node is added as it is
    constructed, without a socket. *)
Lemma connect_with_known_version_opens_nothing_witness :
  @connect net3 [node3] after_failover =
  (Returns tt,
   @with_nodes net3
     (fun ns : list endpoint => ns ++ [mkEndpoint "127.0.0.1" 10803 false false])
     after_failover).
Proof.
  apply (@connect_with_known_version_opens_nothing net3 [node3] after_failover).
  - by eexists.
  - reflexivity.
Defined.

(** The same client, whose current index is 1, closed and connected to one
    endpoint that answers. *)
Lemma stale_index_after_close_witness :
  (@client_close net3 ;;; connect [node3] ;;; random_node) after_failover =
  (Raises IndexError,
   @with_nodes net3 (fun _ => [mkEndpoint "127.0.0.1" 10803 false false])
     after_failover).
Proof.
  apply (@stale_index_after_close net3 [node3] after_failover).
  - by eexists.
  - reflexivity.
  - apply Nat.leb_le. reflexivity.
Defined.

(** The partition-aware client whose first and third nodes are alive: the
    draw gives the third. *)
Lemma partition_aware_node_is_alive_witness :
  exists c,
    _nodes (@random_node net_aware aware_two_alive).2 !! 2%nat = Some c /\
    @alive net_aware c = true.
Proof.
  apply (@partition_aware_node_is_alive net_aware aware_two_alive _ 2%nat);
    reflexivity.
Defined.

(** A new client connected to two endpoints of which the second answers. *)
Lemma connect_leaves_index_in_range_witness :
  length (_nodes (@connect net2 [node1; node2] (init false)).2) = (0 + 2)%nat /\
  (_current_node (@connect net2 [node1; node2] (init false)).2 <
   length (_nodes (@connect net2 [node1; node2] (init false)).2))%nat.
Proof.
  apply (@connect_leaves_index_in_range net2 [node1; node2] (init false)).
  - by right.
  - done.
Defined.

(** The schema of the type "Person": one field, "name", a string. *)
Lemma convert_schema_keeps_field_order_witness :
  @_convert_schema net3 [1] [name_field] = Returns [("name", @_convert_type net3 9)].
Proof.
  apply (@convert_schema_keeps_field_order net3 [1] [name_field] [name_field]).
  - repeat constructor.
  - apply NoDup_singleton.
Defined.

(** The type 42 queried on a server that knows no binary type. *)
Lemma unknown_type_is_not_cached_witness :
  exists w2,
    @query_binary_type net3 (type_by_id 42) schema_none true connected_to_quiet =
      (Returns (@found_dict net3 ∅), w2) /\
    log w2 =
      log connected_to_quiet ++ [ev_get_binary_type "127.0.0.1" 10803 (type_by_id 42)] /\
    forall t' schema',
      registry_lookup t' schema' (_registry w2) =
      registry_lookup t' schema' (_registry connected_to_quiet).
Proof.
  apply (@unknown_type_is_not_cached net3 (type_by_id 42) schema_none true
           connected_to_quiet (with_registry (touch 42) connected_to_quiet) 0%nat
           (mkEndpoint "127.0.0.1" 10803 true false));
    reflexivity.
Defined.

(** The type 42 queried with the schema of the field "name" on the server
    that knows it. *)
Lemma query_builds_class_from_description_witness :
  exists (listed : list (string * Z)) (w' : @state knowing_server),
    listed ∈ [[("name", 9)]] /\
    sample_schema_hash listed = sample_schema_hash [("name", 9)] /\
    @query_binary_type knowing_server (type_by_id 42)
      (@schema_dict knowing_server [("name", 9)]) true connected_to_knowing =
      (Returns (@found_class knowing_server
                  (mkDataClass (hashcode 0 "Person") (sample_schema_hash listed)
                     "Person" listed)), w') /\
    log w' =
      log connected_to_knowing ++ [ev_get_binary_type "127.0.0.1" 10801 (type_by_id 42)].
Proof.
  apply (@query_builds_class_from_description knowing_server (type_by_id 42)
           (@schema_dict knowing_server [("name", 9)]) true connected_to_knowing
           (@get_binary_type knowing_server (type_by_id 42)
              (with_registry (touch 42) connected_to_knowing)).2
           (mkTypeInfo true 42 "Person" None false [[("name", 9)]])).
  - reflexivity.
  - reflexivity.
  - reflexivity.
  - reflexivity.
  - exists [("name", 9)]. split; [apply list_elem_of_singleton|]; reflexivity.
Defined.

(** The class [person_named] registered, then queried by its IDs. *)
Lemma registered_class_is_found_witness :
  exists r,
    @query_binary_type knowing_server (type_by_id 42) (schema_int 5) false
      after_register = (Returns r, after_register) /\
    r = @found_class knowing_server person_named.
Proof.
  apply (@registered_class_is_found knowing_server person_named None false
           connected_to_knowing after_register).
  reflexivity.
Defined.

End MoreExamples.
